(** * godojo: source acquisition of the DefectDojo installer

    A shallow embedding of [godojo.go]: the two acquirers [getDojoRelease]
    and [getDojoSource] and the part of [main] that chooses between them.
    The functions run in a small state monad over the process globals, the
    console, a directory tree and the history of the calls made to the
    operating system, the network and the git library.  What those answer
    and is not fixed by the directory tree (network replies, refusals by
    the operating system, git results) comes from an environment [Env]
    that every theorem quantifies over. *)

From Stdlib Require Import String Ascii List Bool ZArith Lia.
Import ListNotations.
Set Warnings "-register-all".
Local Open Scope list_scope.
Local Open Scope string_scope.

(** ** Strings *)

Definition nl : string := String (ascii_of_nat 10) EmptyString.

(** [strings.Split(s, "/")]. *)
Fixpoint split (s : string) : list string :=
  match s with
  | EmptyString => [EmptyString]
  | String c s' =>
      if Ascii.eqb c "/" then EmptyString :: split s'
      else match split s' with
           | x :: xs => String c x :: xs
           | [] => [String c EmptyString]
           end
  end.

Definition rooted (s : string) : bool :=
  match s with
  | String c _ => Ascii.eqb c "/"
  | EmptyString => false
  end.

(** ** Package [path/filepath] (Unix) *)

Module filepath.

(** The lexical pass of [Clean] over the elements of a path: empty and
    [.] elements go, [..] removes the element before it, [..] at the start
    of a rooted path goes, [..] at the start of a relative path stays.
    [stack] holds the elements kept so far, last one first. *)
Fixpoint clean_elems (isroot : bool) (stack : list string) (elems : list string)
  : list string :=
  match elems with
  | [] => rev stack
  | e :: rest =>
      if (e =? "") || (e =? ".") then clean_elems isroot stack rest
      else if e =? ".." then
        match stack with
        | top :: below =>
            if top =? ".." then clean_elems isroot (e :: stack) rest
            else clean_elems isroot below rest
        | [] =>
            if isroot then clean_elems isroot [] rest
            else clean_elems isroot [e] rest
        end
      else clean_elems isroot (e :: stack) rest
  end.

Definition Clean (p : string) : string :=
  if p =? "" then "."
  else
    let body := String.concat "/" (clean_elems (rooted p) [] (split p)) in
    let out := if rooted p then "/" ++ body else body in
    if out =? "" then "." else out.

(** [Join] of two elements: empty elements are ignored, the rest is joined
    with a separator and cleaned; all elements empty gives the empty
    string. *)
Definition Join (a b : string) : string :=
  if negb (a =? "") then Clean (a ++ "/" ++ b)
  else if negb (b =? "") then Clean b
  else "".

End filepath.

(** ** The directory tree

    A node is a regular file with its content or a directory with its
    entries.  There are no symbolic links and no permissions. *)

Inductive Node : Type :=
| File (data : string)
| Dir (entries : list (string * Node)).

Inductive Kind : Type :=
| KFile (data : string)
| KDir.

Definition kind (n : Node) : Kind :=
  match n with
  | File d => KFile d
  | Dir _ => KDir
  end.

Definition Path := list string.

Fixpoint entry (name : string) (es : list (string * Node)) : option Node :=
  match es with
  | [] => None
  | (k, v) :: rest => if k =? name then Some v else entry name rest
  end.

Fixpoint set_entry (name : string) (v : Node) (es : list (string * Node))
  : list (string * Node) :=
  match es with
  | [] => [(name, v)]
  | (k, w) :: rest =>
      if k =? name then (k, v) :: rest else (k, w) :: set_entry name v rest
  end.

Fixpoint del_entry (name : string) (es : list (string * Node))
  : list (string * Node) :=
  match es with
  | [] => []
  | (k, w) :: rest =>
      if k =? name then del_entry name rest else (k, w) :: del_entry name rest
  end.

Fixpoint lookup (p : Path) (n : Node) : option Node :=
  match p with
  | [] => Some n
  | c :: p' =>
      match n with
      | File _ => None
      | Dir es =>
          match entry c es with
          | Some child => lookup p' child
          | None => None
          end
      end
  end.

Definition stat (p : Path) (n : Node) : option Kind := option_map kind (lookup p n).

Definition is_dir (p : Path) (n : Node) : bool :=
  match stat p n with Some KDir => true | _ => false end.

Definition is_file (p : Path) (n : Node) : bool :=
  match stat p n with Some (KFile _) => true | _ => false end.

(** [within d q]: [q] is [d] or lies below it. *)
Fixpoint within (d q : Path) : bool :=
  match d, q with
  | [], _ => true
  | _ :: _, [] => false
  | x :: d', y :: q' => (x =? y) && within d' q'
  end.

Fixpoint path_eqb (p q : Path) : bool :=
  match p, q with
  | [], [] => true
  | x :: p', y :: q' => (x =? y) && path_eqb p' q'
  | _, _ => false
  end.

(** Error numbers of the system calls. *)
Inductive Errno : Type :=
| ENOENT | ENOTDIR | EISDIR | EEXIST | ENOTEMPTY | EINVAL | EBUSY | EBADF
| EACCES | ENOSPC | EIO | EROFS.

Definition strerror (e : Errno) : string :=
  match e with
  | ENOENT => "no such file or directory"
  | ENOTDIR => "not a directory"
  | EISDIR => "is a directory"
  | EEXIST => "file exists"
  | ENOTEMPTY => "directory not empty"
  | EINVAL => "invalid argument"
  | EBUSY => "device or resource busy"
  | EBADF => "bad file descriptor"
  | EACCES => "permission denied"
  | ENOSPC => "no space left on device"
  | EIO => "input/output error"
  | EROFS => "read-only file system"
  end.

(** [alter_at p f n] walks to the directory that holds [p], which has to
    exist, and lets [f] decide on the entry named by the last element of
    [p]: [f] sees the present entry, if any, and answers with the new one,
    with [None] to remove it, or with an error number. *)
Fixpoint alter_at (p : Path) (f : option Node -> Errno + option Node) (n : Node)
  : Errno + Node :=
  match p with
  | [] => inl EBUSY
  | c :: p' =>
      match n with
      | File _ => inl ENOTDIR
      | Dir es =>
          match p' with
          | [] =>
              match f (entry c es) with
              | inl e => inl e
              | inr None => inr (Dir (del_entry c es))
              | inr (Some v) => inr (Dir (set_entry c v es))
              end
          | _ :: _ =>
              match entry c es with
              | None => inl ENOENT
              | Some child =>
                  match alter_at p' f child with
                  | inl e => inl e
                  | inr child' => inr (Dir (set_entry c child' es))
                  end
              end
          end
      end
  end.

(** mkdir -p: every missing directory on the way is created; a regular
    file on the way is an error; an existing directory is left as it is. *)
Fixpoint mkdir_all (p : Path) (n : Node) : Errno + Node :=
  match n with
  | File _ => inl ENOTDIR
  | Dir es =>
      match p with
      | [] => inr n
      | c :: p' =>
          let child := match entry c es with Some ch => ch | None => Dir [] end in
          match mkdir_all p' child with
          | inl e => inl e
          | inr child' => inr (Dir (set_entry c child' es))
          end
      end
  end.

(** open(O_CREAT|O_TRUNC): a new empty file, or an existing file emptied. *)
Definition create_file (p : Path) (n : Node) : Errno + Node :=
  alter_at p (fun old => match old with
                         | Some (Dir _) => inl EISDIR
                         | _ => inr (Some (File ""))
                         end) n.

(** A write through a fresh handle of an emptied file: the file holds what
    was written. *)
Definition write_file (p : Path) (data : string) (n : Node) : Errno + Node :=
  alter_at p (fun old => match old with
                         | Some (File _) => inr (Some (File data))
                         | Some (Dir _) => inl EISDIR
                         | None => inl EBADF
                         end) n.

(** open(O_CREAT) followed by a write of the whole content. *)
Definition put_file (p : Path) (data : string) (n : Node) : Errno + Node :=
  alter_at p (fun old => match old with
                         | Some (Dir _) => inl EISDIR
                         | _ => inr (Some (File data))
                         end) n.

(** rename(2): what may replace what. *)
Definition replaceable (src : Node) (target : option Node) : Errno + unit :=
  match target, src with
  | None, _ => inr tt
  | Some (File _), File _ => inr tt
  | Some (File _), Dir _ => inl ENOTDIR
  | Some (Dir _), File _ => inl EISDIR
  | Some (Dir []), Dir _ => inr tt
  | Some (Dir (_ :: _)), Dir _ => inl ENOTEMPTY
  end.

Definition rename (old new : Path) (n : Node) : Errno + Node :=
  match lookup old n with
  | None => inl ENOENT
  | Some src =>
      if path_eqb old new then inr n
      else if within old new then inl EINVAL
      else
        match replaceable src (lookup new n) with
        | inl e => inl e
        | inr _ =>
            match alter_at old (fun _ => inr None) n with
            | inl e => inl e
            | inr n1 => alter_at new (fun _ => inr (Some src)) n1
            end
        end
  end.

(** The path a name stands for: a name is taken from the working
    directory unless it is rooted, and the empty name names nothing.
    Dot-dot is resolved on the name, the way [filepath.Clean] does it;
    the kernel resolves it on the disk, which gives the same path when
    the directory that is left exists and there are no symbolic links. *)
Definition resolve (cwd : Path) (name : string) : option Path :=
  if name =? "" then None
  else Some (filepath.clean_elems true []
               (if rooted name then split name else (cwd ++ split name)%list)).

(** ** Errors

    The dynamic types of the [error] values that reach the program. *)

Inductive error : Type :=
| PathError (op path : string) (errno : Errno)
| LinkError (op oldname newname : string) (errno : Errno)
| UrlError (op url reason : string)
| GitError (reason : string)
| UntarError (reason : string)
| errorString (msg : string).

(** The method [Error()]. *)
Definition err_Error (e : error) : string :=
  match e with
  | PathError op path errno => op ++ " " ++ path ++ ": " ++ strerror errno
  | LinkError op o n errno => op ++ " " ++ o ++ " " ++ n ++ ": " ++ strerror errno
  | UrlError op url reason => op ++ " " ++ url ++ ": " ++ reason
  | GitError reason => reason
  | UntarError reason => reason
  | errorString msg => msg
  end.

(** ** Configuration *)

Module config.

(** Modelled from the spec: the type [config.InstallConfig] (package
    [config] is not among the sources), with the fields the spec's data
    model lists, which are the fields the acquisition code reads. *)
Record InstallConfig : Type := {
  Root : string;
  Source : string;
  Version : string;
  SourceInstall : bool;
  SourceCommit : string;
  SourceBranch : string
}.

Record DojoConfig : Type := { Install : InstallConfig }.

End config.
Import config.

(** ** Values of the libraries *)

Module http.
Record Client : Type := { Timeout : Z }.
Record Response : Type := { Status : string; StatusCode : Z; Body : string }.
End http.

Module os.
(** An open file, known by the name it was opened with. *)
Record File : Type := { Name : string }.
End os.

Module plumbing.
Inductive Hash : Type := NewHash (s : string).
Definition ReferenceName := string.
End plumbing.

Module git.
Record CloneOptions : Type := {
  URL : string;
  ReferenceName : plumbing.ReferenceName;
  SingleBranch : bool
}.
Record CheckoutOptions : Type := { Hash : plumbing.Hash }.
Inductive Repository : Type := repository (path : string).
Inductive Worktree : Type := worktree (r : Repository).
End git.

Module tar.
Inductive Typeflag : Type := TypeDir | TypeReg | TypeOther.
Record Entry : Type := { Name : string; Type_ : Typeflag; Data : string }.
End tar.

(** ** Calls that leave the program *)

Inductive Call : Type :=
| HttpGet (timeout : Z) (url : string)
| BodyClose
| OsCreate (name : string)
| IoCopy (dst : string) (data : string)
| OsOpen (name : string)
| UtilUntar (dst : string) (archive : string)
| OsRename (oldpath newpath : string)
| OsStat (name : string)
| OsMkdirAll (path : string) (perm : N)
| GitPlainClone (path : string) (isBare : bool) (o : git.CloneOptions)
| RepoWorktree (r : git.Repository)
| WkCheckout (w : git.Worktree) (o : git.CheckoutOptions).

(** A call together with the error it returned, if any. *)
Definition Event : Type := Call * option error.

(** The calls that go to the network. *)
Definition network_call (c : Call) : bool :=
  match c with
  | HttpGet _ _ | GitPlainClone _ _ _ => true
  | _ => false
  end.

(** The calls only [getDojoRelease] makes, and the calls only
    [getDojoSource] makes. *)
Definition release_call (c : Call) : bool :=
  match c with
  | HttpGet _ _ | BodyClose | OsCreate _ | IoCopy _ _ | OsOpen _
  | UtilUntar _ _ | OsRename _ _ => true
  | _ => false
  end.

Definition source_call (c : Call) : bool :=
  match c with
  | OsStat _ | OsMkdirAll _ _ | GitPlainClone _ _ _ | RepoWorktree _
  | WkCheckout _ _ => true
  | _ => false
  end.

(** ** The environment

    Everything the directory tree does not decide.  Each answer may
    depend on the history of the calls made so far.
    - [env_fault]: the operating system refuses a call for a reason of
      its own (permissions, a full disk, an input/output error);
    - [env_http]: the reply to a GET, or why there is none;
    - [env_tar]: the entries of a gzip-compressed tar archive, or why its
      bytes are not one;
    - [env_clone], [env_worktree], [env_checkout]: what go-git does,
      including what a clone or a checkout writes to the disk. *)
Record Env : Type := {
  env_fault : Call -> list Event -> option Errno;
  env_http : string -> list Event -> string + http.Response;
  env_tar : string -> string + list tar.Entry;
  env_clone : string -> bool -> git.CloneOptions -> list Event -> Node ->
              (string + git.Repository) * Node;
  env_worktree : git.Repository -> list Event -> string + git.Worktree;
  env_checkout : git.Worktree -> git.CheckoutOptions -> list Event -> Node ->
                 option string * Node
}.

(** ** State of the process and of its surroundings *)

Record State : Type := {
  Quiet : bool;                         (* global [Quiet] *)
  TraceOn : bool;                       (* global [TraceOn] *)
  cwd : Path;                           (* working directory *)
  disk : Node;                          (* the root directory *)
  history : list Event;                 (* calls made, oldest first *)
  stdout : list string;                 (* what was printed, oldest first *)
  logfile : list (string * string)      (* log lines: prefix and text *)
}.

Definition set_disk (d : Node) (s : State) : State :=
  {| Quiet := Quiet s; TraceOn := TraceOn s; cwd := cwd s; disk := d;
     history := history s; stdout := stdout s; logfile := logfile s |}.

Definition record (c : Call) (e : option error) (s : State) : State :=
  {| Quiet := Quiet s; TraceOn := TraceOn s; cwd := cwd s; disk := disk s;
     history := (history s ++ [(c, e)])%list; stdout := stdout s;
     logfile := logfile s |}.

Definition put_stdout (t : string) (s : State) : State :=
  {| Quiet := Quiet s; TraceOn := TraceOn s; cwd := cwd s; disk := disk s;
     history := history s; stdout := (stdout s ++ [t])%list;
     logfile := logfile s |}.

Definition put_log (prefix t : string) (s : State) : State :=
  {| Quiet := Quiet s; TraceOn := TraceOn s; cwd := cwd s; disk := disk s;
     history := history s; stdout := stdout s;
     logfile := (logfile s ++ [(prefix, t)])%list |}.

(** ** The monad

    A computation ends with a value, with [os.Exit] or with a panic. *)

Inductive Res (A : Type) : Type :=
| Val (a : A)
| Exit (code : Z)
| Panic (msg : string).
Arguments Val {A} a.
Arguments Exit {A} code.
Arguments Panic {A} msg.

Definition M (A : Type) : Type := State -> Res A * State.

Definition ret {A} (a : A) : M A := fun s => (Val a, s).

Definition bind {A B} (m : M A) (k : A -> M B) : M B :=
  fun s =>
    match m s with
    | (Val a, s') => k a s'
    | (Exit c, s') => (Exit c, s')
    | (Panic msg, s') => (Panic msg, s')
    end.

Declare Scope go_scope.
Delimit Scope go_scope with go.
Notation "x <- m ;; k" := (bind m (fun x => k))
  (at level 61, m at next level, right associativity) : go_scope.
Notation "' pat <- m ;; k" := (bind m (fun x => match x with pat => k end))
  (at level 61, pat pattern, m at next level, right associativity) : go_scope.
Notation "m ;; k" := (bind m (fun _ => k))
  (at level 61, right associativity) : go_scope.
Local Open Scope go_scope.

(** A deferred call runs when the function returns or panics, not when
    the process exits. *)
Definition defer {A} (d : M unit) (body : M A) : M A :=
  fun s =>
    match body s with
    | (Val a, s') => match d s' with
                     | (Val _, s'') => (Val a, s'')
                     | (Exit c, s'') => (Exit c, s'')
                     | (Panic m, s'') => (Panic m, s'')
                     end
    | (Panic m, s') => match d s' with
                       | (Exit c, s'') => (Exit c, s'')
                       | (_, s'') => (Panic m, s'')
                       end
    | (Exit c, s') => (Exit c, s')
    end.

Definition nil_dereference : string :=
  "runtime error: invalid memory address or nil pointer dereference".

(** Use of a pointer: nil panics. *)
Definition deref {A} (p : option A) : M A :=
  fun s => match p with
           | Some a => (Val a, s)
           | None => (Panic nil_dereference, s)
           end.

Definition get_Quiet : M bool := fun s => (Val (Quiet s), s).
Definition get_TraceOn : M bool := fun s => (Val (TraceOn s), s).

Definition when (b : bool) (m : M unit) : M unit := if b then m else ret tt.

(** ** Printing and logging *)

Module fmt.
Definition Print (t : string) : M unit := fun s => (Val tt, put_stdout t s).
Definition Println (t : string) : M unit := Print (t ++ nl).
(** [%+v] of a boolean and of an error. *)
Definition v_bool (b : bool) : string := if b then "true" else "false".
Definition v_error (e : option error) : string :=
  match e with
  | Some x => err_Error x
  | None => "<nil>"
  end.
Definition Errorf (msg : string) : error := errorString msg.
End fmt.

Module log.
(** A logger, as [logSetup] makes it: its prefix.  The date and the time
    that start a line are left out. *)
Record Logger : Type := { prefix : string }.
Definition Println (l : Logger) (t : string) : M unit :=
  fun s => (Val tt, put_log (prefix l) t s).
End log.

Definition HelpURL : string := "https://github.com/mtesauro/godojo".
Definition ReleaseURL : string :=
  "https://github.com/DefectDojo/django-DefectDojo/archive/".
Definition CloneURL : string :=
  "https://github.com/DefectDojo/django-DefectDojo.git".

Definition Trace : log.Logger := {| log.prefix := "TRACE:   " |}.
Definition Info : log.Logger := {| log.prefix := "INFO:    " |}.
Definition Warning : log.Logger := {| log.prefix := "WARNING: " |}.
Definition Error : log.Logger := {| log.prefix := "ERROR:   " |}.

Definition rule_eq : string :=
  "==============================================================================".
Definition rule_hash : string :=
  "##############################################################################".

Definition sectionMsg (s : string) : M unit :=
  q <- get_Quiet;;
  when (negb q)
    (fmt.Println "";;
     fmt.Println rule_eq;;
     fmt.Print ("  " ++ s ++ nl);;
     fmt.Println rule_eq;;
     fmt.Println "");;
  log.Println Info ("SECTION: " ++ s).

Definition statusMsg (s : string) : M unit :=
  q <- get_Quiet;;
  when (negb q) (fmt.Print (s ++ nl));;
  log.Println Info s.

Definition errorMsg (s : string) : M unit :=
  q <- get_Quiet;;
  when (negb q)
    (fmt.Println "";;
     fmt.Println rule_hash;;
     fmt.Print ("  ERROR: " ++ s ++ nl);;
     fmt.Println rule_hash;;
     fmt.Println "");;
  log.Println Error s.

Definition traceMsg (s : string) : M unit :=
  t <- get_TraceOn;;
  when t (log.Println Trace s).

Definition os_Exit {A} (code : Z) : M A := fun s => (Exit code, s).

Section Program.

Variable env : Env.

(** ** Calls to the operating system

    A call is refused when the environment says so and otherwise does
    what the directory tree allows. *)

Definition syscall (c : Call) (mkerr : Errno -> error)
    (act : Path -> Node -> Errno + Node) (s : State) : option error * State :=
  let outcome :=
    match env_fault env c (history s) with
    | Some e => inl e
    | None => act (cwd s) (disk s)
    end in
  match outcome with
  | inl e => (Some (mkerr e), record c (Some (mkerr e)) s)
  | inr d => (None, record c None (set_disk d s))
  end.

(** Runs [act] at the path the name resolves to. *)
Definition at_name (name : string) (act : Path -> Node -> Errno + Node)
    (cwd : Path) (d : Node) : Errno + Node :=
  match resolve cwd name with
  | None => inl ENOENT
  | Some p => act p d
  end.

Definition must_exist (p : Path) (d : Node) : Errno + Node :=
  match lookup p d with
  | Some _ => inr d
  | None => inl ENOENT
  end.

(** [os.Stat]; the [FileInfo] it returns is not modelled. *)
Definition os_Stat (name : string) : M (unit * option error) :=
  fun s =>
    let '(err, s') := syscall (OsStat name) (PathError "stat" name)
                        (at_name name must_exist) s in
    (Val (tt, err), s').

Definition os_MkdirAll (path : string) (perm : N) : M (option error) :=
  fun s =>
    let '(err, s') := syscall (OsMkdirAll path perm) (PathError "mkdir" path)
                        (at_name path mkdir_all) s in
    (Val err, s').

Definition as_file (name : string) (err : option error) : option os.File :=
  match err with
  | Some _ => None
  | None => Some {| os.Name := name |}
  end.

Definition os_Create (name : string) : M (option os.File * option error) :=
  fun s =>
    let '(err, s') := syscall (OsCreate name) (PathError "open" name)
                        (at_name name create_file) s in
    (Val (as_file name err, err), s').

Definition os_Open (name : string) : M (option os.File * option error) :=
  fun s =>
    let '(err, s') := syscall (OsOpen name) (PathError "open" name)
                        (at_name name must_exist) s in
    (Val (as_file name err, err), s').

(** The write of [io.Copy]: a response body goes into a file just
    created; the number of bytes returned is the length of the body or
    zero. *)
Definition copy_into (dst : os.File) (src : string) : M (Z * option error) :=
  fun s =>
    let name := os.Name dst in
    let '(err, s') := syscall (IoCopy name src) (PathError "write" name)
                        (at_name name (fun p => write_file p src)) s in
    (Val (match err with
          | Some _ => 0%Z
          | None => Z.of_nat (String.length src)
          end, err), s').

Definition os_Rename (oldpath newpath : string) : M (option error) :=
  fun s =>
    let '(err, s') :=
      syscall (OsRename oldpath newpath) (LinkError "rename" oldpath newpath)
        (fun cwd d =>
           match resolve cwd oldpath, resolve cwd newpath with
           | Some o, Some n => rename o n d
           | _, _ => inl ENOENT
           end) s in
    (Val err, s').

(** ** Calls to the network and to go-git *)

Definition http_Get (c : http.Client) (url : string)
  : M (option http.Response * option error) :=
  fun s =>
    match env_http env url (history s) with
    | inl reason =>
        let e := UrlError "Get" url reason in
        (Val (None, Some e), record (HttpGet (http.Timeout c) url) (Some e) s)
    | inr resp =>
        (Val (Some resp, None), record (HttpGet (http.Timeout c) url) None s)
    end.

(** [resp.Body.Close()]; its result is dropped by the [defer]. *)
Definition Body_Close : M unit :=
  fun s => (Val tt, record BodyClose None s).

Definition git_PlainClone (path : string) (isBare : bool) (o : git.CloneOptions)
  : M (option git.Repository * option error) :=
  fun s =>
    let c := GitPlainClone path isBare o in
    match env_clone env path isBare o (history s) (disk s) with
    | (inl reason, d) =>
        (Val (None, Some (GitError reason)),
         record c (Some (GitError reason)) (set_disk d s))
    | (inr r, d) => (Val (Some r, None), record c None (set_disk d s))
    end.

(** The method [Worktree] of a repository. *)
Definition Repository_Worktree (r : option git.Repository)
  : M (option git.Worktree * option error) :=
  r' <- deref r;;
  fun s =>
    match env_worktree env r' (history s) with
    | inl reason =>
        (Val (None, Some (GitError reason)),
         record (RepoWorktree r') (Some (GitError reason)) s)
    | inr w => (Val (Some w, None), record (RepoWorktree r') None s)
    end.

(** The method [Checkout] of a work tree; it reads the fields of its
    receiver, so a nil receiver panics. *)
Definition Worktree_Checkout (w : option git.Worktree) (o : git.CheckoutOptions)
  : M (option error) :=
  w' <- deref w;;
  fun s =>
    match env_checkout env w' o (history s) (disk s) with
    | (Some reason, d) =>
        (Val (Some (GitError reason)),
         record (WkCheckout w' o) (Some (GitError reason)) (set_disk d s))
    | (None, d) => (Val None, record (WkCheckout w' o) None (set_disk d s))
    end.

(** ** Package [util] *)

Definition illegal_path (name : string) : error :=
  UntarError ("illegal file path: " ++ name).

(** Modelled from the spec: one entry of the archive read by
    [util.Untar].  The entry goes to the join of the destination and its
    name; an entry whose path resolves outside the destination is
    rejected; a directory is made with its parents, a regular file is
    written, any other type is skipped. *)
Definition untar_entry (cwd root : Path) (dst : string) (e : tar.Entry)
    (d : Node) : error + Node :=
  let target := filepath.Join dst (tar.Name e) in
  match resolve cwd target with
  | None => inl (illegal_path (tar.Name e))
  | Some p =>
      if within root p then
        match tar.Type_ e with
        | tar.TypeDir =>
            match mkdir_all p d with
            | inl no => inl (PathError "mkdir" target no)
            | inr d' => inr d'
            end
        | tar.TypeReg =>
            match put_file p (tar.Data e) d with
            | inl no => inl (PathError "open" target no)
            | inr d' => inr d'
            end
        | tar.TypeOther => inr d
        end
      else inl (illegal_path (tar.Name e))
  end.

(** Modelled from the spec: the entries are unpacked in the order of the
    archive and the first error ends the extraction. *)
Fixpoint untar_entries (cwd root : Path) (dst : string) (es : list tar.Entry)
    (d : Node) : option error * Node :=
  match es with
  | [] => (None, d)
  | e :: rest =>
      match untar_entry cwd root dst e d with
      | inl err => (Some err, d)
      | inr d' => untar_entries cwd root dst rest d'
      end
  end.

(** Modelled from the spec: [util.Untar] (package [util] is not among the
    sources), the generic tar extraction of the spec: it reads the
    archive, fails on bytes that are not an archive, and extracts into
    the destination, which has to be a directory, so that nothing is ever
    made outside of it. *)
Definition util_Untar (dst : string) (r : option os.File) : M (option error) :=
  fun s =>
    match r with
    | None => (Val (Some (errorString "invalid argument")), s)
    | Some f =>
        let c := UtilUntar dst (os.Name f) in
        let fail e := (Val (Some e), record c (Some e) s) in
        match env_fault env c (history s) with
        | Some no => fail (PathError "read" (os.Name f) no)
        | None =>
            match resolve (cwd s) (os.Name f) with
            | None => fail (PathError "read" (os.Name f) ENOENT)
            | Some p =>
                match lookup p (disk s) with
                | None => fail (PathError "read" (os.Name f) ENOENT)
                | Some (Dir _) => fail (PathError "read" (os.Name f) EISDIR)
                | Some (File bytes) =>
                    match env_tar env bytes with
                    | inl reason => fail (UntarError reason)
                    | inr entries =>
                        match resolve (cwd s) (filepath.Clean dst) with
                        | None => fail (PathError "stat" dst ENOENT)
                        | Some root =>
                            if is_dir root (disk s) then
                              let '(err, d) :=
                                untar_entries (cwd s) root dst entries (disk s) in
                              (Val err, record c err (set_disk d s))
                            else fail (PathError "stat" dst ENOTDIR)
                        end
                    end
                end
            end
        end
    end.

(** [io.Copy] into a file; a nil file refuses the write. *)
Definition io_Copy (dst : option os.File) (src : string) : M (Z * option error) :=
  match dst with
  | None => ret (0%Z, Some (errorString "invalid argument"))
  | Some f => copy_into f src
  end.

(** ** [getDojoRelease] *)

Definition getDojoRelease (i : InstallConfig) : M (option error) :=
  statusMsg "Downloading the configured release of DefectDojo";;

  (* Setup needed info *)
  let dwnURL := ReleaseURL ++ Version i ++ ".tar.gz" in
  let tarball := Root i ++ "/dojo-v" ++ Version i ++ ".tar.gz" in
  traceMsg ("Relese download list is " ++ dwnURL);;
  traceMsg ("File path to write tarball is " ++ tarball);;

  (* A custom http client, timeout of 20 seconds *)
  let ddClient := {| http.Timeout := 20 |} in
  traceMsg "http.Client timeout set to 20 seconds for release download";;

  (* Download requested release from Dojo's Github repo *)
  traceMsg ("Downloading release from " ++ dwnURL);;
  '(resp, err) <- http_Get ddClient dwnURL;;
  match err with
  | Some _ =>
      traceMsg ("Error downloading from " ++ dwnURL);;
      traceMsg ("Error downloading was: " ++ fmt.v_error err);;
      ret err
  | None =>
      resp' <- deref resp;;
      defer Body_Close
        ((* the status is logged and not looked at *)
         traceMsg ("Status of http.Client response was " ++ http.Status resp');;

         (* Create the file handle *)
         traceMsg "Creating file for downloaded tarball";;
         '(out, err) <- os_Create tarball;;
         match err with
         | Some _ =>
             traceMsg ("Error creating tarball was: " ++ fmt.v_error err);;
             ret err
         | None =>
             (* Write the content downloaded into the file *)
             traceMsg "Writing downloaded content to tarball file";;
             '(_, err) <- io_Copy out (http.Body resp');;
             match err with
             | Some _ =>
                 traceMsg ("Error writing file contents was: " ++ fmt.v_error err);;
                 ret err
             | None =>
                 (* Extract the tarball to create the Dojo source directory *)
                 traceMsg "Extracting tarball into the Dojo source directory";;
                 '(tb, err) <- os_Open tarball;;
                 match err with
                 | Some _ =>
                     traceMsg ("Error openging tarball was: " ++ fmt.v_error err);;
                     ret err
                 | None =>
                     err <- util_Untar (Root i) tb;;
                     match err with
                     | Some _ =>
                         traceMsg ("Error extracting tarball was: " ++ fmt.v_error err);;
                         ret err
                     | None =>
                         (* Rename source directory to the non-versioned name *)
                         traceMsg "Renaming source directory to the non-versioned name";;
                         let oldPath :=
                           filepath.Join (Root i) ("django-DefectDojo-" ++ Version i) in
                         let newPath := filepath.Join (Root i) (Source i) in
                         err <- os_Rename oldPath newPath;;
                         match err with
                         | Some _ =>
                             traceMsg ("Error renaming Dojo source directory was: "
                                       ++ fmt.v_error err);;
                             ret err
                         | None =>
                             statusMsg "Successfully downloaded and extracted the DefectDojo release file";;
                             ret None
                         end
                     end
                 end
             end
         end)
  end.

(** ** [getDojoSource] *)

Definition getDojoSource (i : InstallConfig) : M (option error) :=
  statusMsg "Downloading DefectDojo source as a branch or commit from the repo directly";;

  (* Create the directory to clone the source into if it doesn't exist already *)
  traceMsg "Creating source directory if it doesn't exist already";;
  let srcPath := filepath.Join (Root i) (Source i) in

  (* what follows the creation of the directory *)
  let checkout : M (option error) :=
    traceMsg "Determing if a commit or branch will be checked out of the repo";;
    if Nat.ltb 0 (String.length (SourceCommit i)) then
      (* Commit is set, so it will be used and branch ignored *)
      statusMsg ("Dojo will be installed from commit " ++ SourceCommit i);;

      (* Do the initial clone of DefectDojo from Github *)
      traceMsg ("Intial clone of " ++ CloneURL);;
      '(repo, err) <- git_PlainClone srcPath false
                        {| git.URL := CloneURL;
                           git.ReferenceName := "";
                           git.SingleBranch := false |};;
      match err with
      | Some _ =>
          traceMsg ("Error cloning the DefectDojo repo was: " ++ fmt.v_error err);;
          ret err
      | None =>
          (* Setup the working tree for checking out a particular commit *)
          traceMsg "Setting up the working tree to checkout the commit";;
          '(wk, err) <- Repository_Worktree repo;;
          (* err is assigned again before it is looked at *)
          err <- Worktree_Checkout wk
                   {| git.Hash := plumbing.NewHash (SourceCommit i) |};;
          match err with
          | Some _ =>
              fmt.Print ("Error checking out was " ++ fmt.v_error err ++ nl);;
              traceMsg ("Error checking out was: " ++ fmt.v_error err);;
              ret err
          | None =>
              statusMsg "Successfully checked out the configured DefectDojo source";;
              ret None
          end
      end
    else
      if Nat.eqb (String.length (SourceBranch i)) 0 then
        (* Handle the case that both source commit and branch are wonky *)
        let err :=
          Some (fmt.Errorf
                  ("Both source commit and branch have empty or nonsensical values configured."
                   ++ nl ++ "  Source commit was configured as " ++ SourceCommit i
                   ++ " and branch was configured as " ++ SourceBranch i)) in
        traceMsg ("Error checking out Dojo source was: " ++ fmt.v_error err);;
        ret err
      else
        statusMsg ("DefectDojo will be installed from branch " ++ SourceBranch i);;

        (* Check out a specific branch *)
        traceMsg ("Checking out branch " ++ SourceBranch i);;
        '(_, err) <- git_PlainClone srcPath false
                       {| git.URL := CloneURL;
                          git.ReferenceName := "refs/heads/" ++ SourceBranch i;
                          git.SingleBranch := true |};;
        match err with
        | Some _ =>
            traceMsg ("Error checking out branch was: " ++ fmt.v_error err);;
            ret err
        | None =>
            statusMsg "Successfully checked out the configured DefectDojo source";;
            ret None
        end
  in

  '(_, err) <- os_Stat srcPath;;
  match err with
  | Some _ =>
      (* Source directory doesn't exist *)
      err <- os_MkdirAll srcPath 493;;
      match err with
      | Some _ =>
          traceMsg ("Error creating Dojo source directory was: " ++ fmt.v_error err);;
          ret err
      | None => checkout
      end
  | None => checkout
  end.

(** ** [main]

    [main] from the point where the configuration has been read into
    [conf], the globals [Quiet] and [TraceOn] are set and the loggers are
    in place: the choice of the acquirer and what follows it. *)
Definition main (conf : DojoConfig) : M unit :=
  sectionMsg "Downloading the source for DefectDojo";;

  (* Determine if a release or Dojo source will be installed *)
  traceMsg ("Determing if this is a source or release install: SourceInstall is "
            ++ fmt.v_bool (SourceInstall (Install conf)));;
  (if SourceInstall (Install conf) then
     (* Checkout the Dojo source directly from Github *)
     traceMsg "Dojo will be installed from source";;
     err <- getDojoSource (Install conf);;
     match err with
     | Some _ =>
         errorMsg ("Error attempting to install Dojo source was:" ++ nl ++ "    "
                   ++ fmt.v_error err);;
         os_Exit 1
     | None => ret tt
     end
   else
     (* Download Dojo source as a Github release tarball *)
     traceMsg "Dojo will be installed from a release tarball";;
     err <- getDojoRelease (Install conf);;
     match err with
     | Some _ =>
         errorMsg ("Error attempting to install Dojo from a release tarball was:"
                   ++ nl ++ "    " ++ fmt.v_error err);;
         os_Exit 1
     | None => ret tt
     end);;

  fmt.Println (nl ++ nl ++ "Succefully reached the end of main").

End Program.

(** ** Vocabulary of the statements *)

(** The names the acquirers compute from a configuration. *)
Definition srcPath_of (i : InstallConfig) : string :=
  filepath.Join (Root i) (Source i).
Definition tarball_of (i : InstallConfig) : string :=
  Root i ++ "/dojo-v" ++ Version i ++ ".tar.gz".
Definition dwnURL_of (i : InstallConfig) : string :=
  ReleaseURL ++ Version i ++ ".tar.gz".
Definition oldPath_of (i : InstallConfig) : string :=
  filepath.Join (Root i) ("django-DefectDojo-" ++ Version i).

(** The calls of a run of [getDojoRelease] in which nothing fails. *)
Definition release_calls (i : InstallConfig) (body : string) : list Call :=
  [ HttpGet 20 (dwnURL_of i);
    OsCreate (tarball_of i);
    IoCopy (tarball_of i) body;
    OsOpen (tarball_of i);
    UtilUntar (Root i) (tarball_of i);
    OsRename (oldPath_of i) (srcPath_of i);
    BodyClose ].

(** The error of [getDojoSource] for a configuration without commit and
    without branch. *)
Definition empty_configuration_error (i : InstallConfig) : error :=
  errorString
    ("Both source commit and branch have empty or nonsensical values configured."
     ++ nl ++ "  Source commit was configured as " ++ SourceCommit i
     ++ " and branch was configured as " ++ SourceBranch i).

(** The clone of the whole repository into the source directory and the
    checkout of the configured commit. *)
Definition full_clone (i : InstallConfig) : Call :=
  GitPlainClone (srcPath_of i) false
    {| git.URL := CloneURL; git.ReferenceName := ""; git.SingleBranch := false |}.

Definition commit_checkout (i : InstallConfig) (w : git.Worktree) : Call :=
  WkCheckout w {| git.Hash := plumbing.NewHash (SourceCommit i) |}.

(** The first calls of [getDojoSource] when the source directory is
    there or could be made, and when it could not be made. *)
Definition directory_ready (i : InstallConfig) (pre : list Event) : Prop :=
  pre = [(OsStat (srcPath_of i), None)]
  \/ exists e0, pre = [(OsStat (srcPath_of i), Some e0);
                       (OsMkdirAll (srcPath_of i) 493, None)].

Definition directory_failed (i : InstallConfig) (new : list Event) (e : error)
  : Prop :=
  exists e0, new = [(OsStat (srcPath_of i), Some e0);
                    (OsMkdirAll (srcPath_of i) 493, Some e)].

(** The calls of the commit path once the directory is ready, with the
    result of [getDojoSource]: the clone fails; or the work tree is not
    obtained; or the checkout is made and its error, if any, returned. *)
Inductive commit_path (i : InstallConfig)
  : list Event -> Res (option error) -> Prop :=
| clone_failed (e : error) :
    commit_path i [(full_clone i, Some e)] (Val (Some e))
| worktree_failed (r : git.Repository) (e : error) :
    commit_path i [(full_clone i, None); (RepoWorktree r, Some e)]
      (Panic nil_dereference)
| checkout_done (r : git.Repository) (w : git.Worktree) (e : option error) :
    commit_path i
      [(full_clone i, None); (RepoWorktree r, None); (commit_checkout i w, e)]
      (Val e).


(** An entry of an archive that goes to a path at or below [root]. *)
Definition inside (cwd root : Path) (dst : string) (e : tar.Entry) : Prop :=
  exists p, resolve cwd (filepath.Join dst (tar.Name e)) = Some p
            /\ within root p = true.

(** Two states that differ in what was printed and logged only. *)
Definition same_surroundings (s s0 : State) : Prop :=
  Quiet s0 = Quiet s /\ TraceOn s0 = TraceOn s /\ cwd s0 = cwd s
  /\ disk s0 = disk s /\ history s0 = history s.

(** The acquirer [main] chooses, the calls that belong to it, those that
    belong to the other one, and how [main] names it in its error
    message. *)
Definition acquirer (env : Env) (i : InstallConfig) : M (option error) :=
  if SourceInstall i then getDojoSource env i else getDojoRelease env i.

Definition acquirer_call (i : InstallConfig) (c : Call) : bool :=
  if SourceInstall i then source_call c else release_call c.

Definition other_acquirer_call (i : InstallConfig) (c : Call) : bool :=
  if SourceInstall i then release_call c else source_call c.

Definition acquirer_name (i : InstallConfig) : string :=
  if SourceInstall i then "Dojo source" else "Dojo from a release tarball".

(** ** Auxiliary definitions for the lemmas on names *)





(** ** Concrete surroundings, for the examples *)

Module Demo.

(** A release archive as the bytes the server sends and as the entries
    they decode to. *)
Definition archive_bytes : string := "TGZ:django-DefectDojo-1.2.3".

Definition archive_entries : list tar.Entry :=
  [ {| tar.Name := "django-DefectDojo-1.2.3/"; tar.Type_ := tar.TypeDir;
       tar.Data := "" |};
    {| tar.Name := "django-DefectDojo-1.2.3/README.md"; tar.Type_ := tar.TypeReg;
       tar.Data := "DefectDojo" |} ].

Definition decode (bytes : string) : string + list tar.Entry :=
  if bytes =? archive_bytes then inr archive_entries
  else inl "gzip: invalid header".

Definition ok_reply : http.Response :=
  {| http.Status := "200 OK"; http.StatusCode := 200; http.Body := archive_bytes |}.

Definition not_found_reply : http.Response :=
  {| http.Status := "404 Not Found"; http.StatusCode := 404;
     http.Body := "Not Found" |}.

(** A clone that works makes the directory [.git] below the path. *)
Definition clone_ok (path : string) (d : Node) : (string + git.Repository) * Node :=
  match resolve [] (path ++ "/.git") with
  | Some p =>
      match mkdir_all p d with
      | inr d' => (inr (git.repository path), d')
      | inl _ => (inl "repository path is not usable", d)
      end
  | None => (inl "repository path is not usable", d)
  end.

(** An environment from the reply to the GET and the answer of
    [Worktree]; nothing is refused and the rest of go-git works. *)
Definition make_env (reply : string + http.Response)
    (wt : git.Repository -> string + git.Worktree) : Env :=
  {| env_fault := fun _ _ => None;
     env_http := fun _ _ => reply;
     env_tar := decode;
     env_clone := fun path _ _ _ d => clone_ok path d;
     env_worktree := fun r _ => wt r;
     env_checkout := fun _ _ _ d => (None, d) |}.

Definition env_ok : Env := make_env (inr ok_reply) (fun r => inr (git.worktree r)).

Definition env_404 : Env :=
  make_env (inr not_found_reply) (fun r => inr (git.worktree r)).



Definition start (d : Node) : State :=
  {| Quiet := false; TraceOn := true; cwd := []; disk := d; history := [];
     stdout := []; logfile := [] |}.

(** [/opt/dojo] exists and is empty. *)
Definition disk_fresh : Node := Dir [("opt", Dir [("dojo", Dir [])])].



Definition cfg_release : InstallConfig :=
  {| Root := "/opt/dojo"; Source := "dojo"; Version := "1.2.3";
     SourceInstall := false; SourceCommit := ""; SourceBranch := "" |}.

Definition cfg_commit : InstallConfig :=
  {| Root := "/opt/dojo"; Source := "dojo"; Version := "1.2.3";
     SourceInstall := true; SourceCommit := "abc123";
     SourceBranch := "release/2.0" |}.

Definition cfg_branch : InstallConfig :=
  {| Root := "/opt/dojo"; Source := "dojo"; Version := "1.2.3";
     SourceInstall := true; SourceCommit := ""; SourceBranch := "dev" |}.

Definition cfg_neither : InstallConfig :=
  {| Root := "/opt/dojo"; Source := "dojo"; Version := "1.2.3";
     SourceInstall := true; SourceCommit := ""; SourceBranch := "" |}.




(** [/opt/dojo] after the download of the release archive. *)
Definition disk_downloaded : Node :=
  Dir [("opt", Dir [("dojo", Dir [("dojo-v1.2.3.tar.gz", File archive_bytes)])])].

(** An archive with an entry that points out of the destination. *)
Definition evil_entries : list tar.Entry :=
  [ {| tar.Name := "django-DefectDojo-1.2.3/"; tar.Type_ := tar.TypeDir;
       tar.Data := "" |};
    {| tar.Name := "../../etc/cron.d/job"; tar.Type_ := tar.TypeReg;
       tar.Data := "* * * * * root true" |} ].

End Demo.

(** ** Vocabulary of the further statements *)

(** The clone of one branch into the source directory. *)
Definition branch_clone (i : InstallConfig) : Call :=
  GitPlainClone (srcPath_of i) false
    {| git.URL := CloneURL;
       git.ReferenceName := "refs/heads/" ++ SourceBranch i;
       git.SingleBranch := true |}.

(** The calls of [getDojoRelease] that can fail, in the order of the
    source. *)
Definition release_steps (i : InstallConfig) (body : string) : list Call :=
  [ HttpGet 20 (dwnURL_of i);
    OsCreate (tarball_of i);
    IoCopy (tarball_of i) body;
    OsOpen (tarball_of i);
    UtilUntar (Root i) (tarball_of i);
    OsRename (oldPath_of i) (srcPath_of i) ].

Definition succeeded (c : Call) : Event := (c, None).

(** The deferred close of the body of the reply after a failure of step
    [k]: there is a body to close once the GET, step 0, has worked. *)
Definition closing (k : nat) : list Event :=
  match k with
  | O => []
  | S _ => [(BodyClose, None)]
  end.

(** A checkout that returned an error, a [Worktree] that returned an
    error, and the creation of a file that worked. *)
Definition failed_checkout (ev : Event) : bool :=
  match ev with
  | (WkCheckout _ _, Some _) => true
  | _ => false
  end.

Definition failed_worktree (ev : Event) : bool :=
  match ev with
  | (RepoWorktree _, Some _) => true
  | _ => false
  end.

Definition created (ev : Event) : bool :=
  match ev with
  | (OsCreate _, None) => true
  | _ => false
  end.

(** The calls to the network among the events. *)
Definition network_calls (evs : list Event) : list Call :=
  filter network_call (map fst evs).


(** The starts of the trace lines with which the acquirers log the error
    they return. *)
Definition release_error_notes : list string :=
  [ "Error downloading was: ";
    "Error creating tarball was: ";
    "Error writing file contents was: ";
    "Error openging tarball was: ";
    "Error extracting tarball was: ";
    "Error renaming Dojo source directory was: " ].

Definition source_error_notes : list string :=
  [ "Error creating Dojo source directory was: ";
    "Error cloning the DefectDojo repo was: ";
    "Error checking out was: ";
    "Error checking out Dojo source was: ";
    "Error checking out branch was: " ].

(** Two states with the same working directory, disk and history: they
    may differ in the flags [Quiet] and [TraceOn], in what was printed
    and in what was logged. *)
Definition same_world (s1 s2 : State) : Prop :=
  cwd s1 = cwd s2 /\ disk s1 = disk s2 /\ history s1 = history s2.

(** Two runs that end the same way in the same world. *)
Definition agree {A} (r1 r2 : Res A * State) : Prop :=
  fst r1 = fst r2 /\ same_world (snd r1) (snd r2).

(** A computation whose result and whose effects on the world do not
    depend on the flags, on the console or on the log. *)
Definition blind {A} (m : M A) : Prop :=
  forall s1 s2, same_world s1 s2 -> agree (m s1) (m s2).

(** ** More concrete surroundings *)

Module Cases.

(** The flag [Quiet] set, no tracing. *)
Definition quiet (d : Node) : State :=
  {| Quiet := true; TraceOn := false; cwd := []; disk := d; history := [];
     stdout := []; logfile := [] |}.

(** The commit asked for is not in the repository: the clone works and
    the checkout fails. *)
Definition ErrObjectNotFound : string := "object not found".

Definition env_no_commit : Env :=
  {| env_fault := fun _ _ => None;
     env_http := fun _ _ => inr Demo.ok_reply;
     env_tar := Demo.decode;
     env_clone := fun path _ _ _ d => Demo.clone_ok path d;
     env_worktree := fun r _ => inr (git.worktree r);
     env_checkout := fun _ _ _ d => (Some ErrObjectNotFound, d) |}.

Definition conf_release : DojoConfig := {| Install := Demo.cfg_release |}.

End Cases.

(** * Properties of names *)

(** ** Splitting and joining names *)











(** ** The lexical cleaning *)







(** ** Resolving names *)



(** ** The archive and the renamed directory *)




(** * Properties of the directory tree *)

(** ** Entries of a directory *)

Lemma entry_set_same (c : string) (v : Node) (es : list (string * Node)) :
  entry c (set_entry c v es) = Some v.
Proof.
  induction es as [|[k w] es IH]; simpl.
  - now rewrite String.eqb_refl.
  - destruct (k =? c) eqn:E; simpl; rewrite E; auto.
Qed.

Lemma entry_set_other (c y : string) (v : Node) (es : list (string * Node)) :
  (c =? y) = false -> entry y (set_entry c v es) = entry y es.
Proof.
  intros Hne. induction es as [|[k w] es IH]; simpl.
  - now rewrite Hne.
  - destruct (k =? c) eqn:E; simpl.
    + apply String.eqb_eq in E. subst k. now rewrite Hne.
    + now rewrite IH.
Qed.

Lemma entry_del_other (c y : string) (es : list (string * Node)) :
  (c =? y) = false -> entry y (del_entry c es) = entry y es.
Proof.
  intros Hne. induction es as [|[k w] es IH]; simpl; auto.
  destruct (k =? c) eqn:E; simpl.
  - apply String.eqb_eq in E. subst k. now rewrite Hne.
  - now rewrite IH.
Qed.

Lemma entry_del_same (c : string) (es : list (string * Node)) :
  entry c (del_entry c es) = None.
Proof.
  induction es as [|[k w] es IH]; simpl; auto.
  destruct (k =? c) eqn:E; simpl; auto. now rewrite E.
Qed.

(** ** Paths *)

Lemma path_eqb_eq (p q : Path) : path_eqb p q = true <-> p = q.
Proof.
  revert q. induction p as [|x p IH]; intros [|y q]; simpl; split; intros H;
    try discriminate; auto.
  - apply andb_true_iff in H. destruct H as [H1 H2].
    apply String.eqb_eq in H1. apply IH in H2. congruence.
  - injection H as -> ->. rewrite String.eqb_refl. simpl. now apply IH.
Qed.

Lemma within_refl (p : Path) : within p p = true.
Proof. induction p; simpl; auto. now rewrite String.eqb_refl. Qed.

Lemma within_app (d r : Path) : within d (d ++ r)%list = true.
Proof. induction d; simpl; auto. now rewrite String.eqb_refl. Qed.

Lemma within_inv (d q : Path) : within d q = true -> exists r, q = (d ++ r)%list.
Proof.
  revert q. induction d as [|x d IH]; intros q H.
  - now exists q.
  - destruct q as [|y q]; simpl in H; try discriminate.
    apply andb_true_iff in H. destruct H as [H1 H2].
    apply String.eqb_eq in H1. subst y. destruct (IH _ H2) as [r ->].
    now exists r.
Qed.

Lemma within_trans (a b c : Path) :
  within a b = true -> within b c = true -> within a c = true.
Proof.
  intros H1 H2. apply within_inv in H1. apply within_inv in H2.
  destruct H1 as [r1 ->]. destruct H2 as [r2 ->].
  rewrite <- app_assoc. apply within_app.
Qed.

Lemma within_antisym (a b : Path) :
  within a b = true -> within b a = true -> a = b.
Proof.
  revert b. induction a as [|x a IH]; intros [|y b]; simpl; intros H1 H2;
    try discriminate; auto.
  apply andb_true_iff in H1. destruct H1 as [H1 H1'].
  apply andb_true_iff in H2. destruct H2 as [_ H2'].
  apply String.eqb_eq in H1. subst. f_equal. auto.
Qed.

(** What is not below [d] is not below anything below [d]. *)
Lemma outside_below (d p q : Path) :
  within d p = true -> within d q = false -> within p q = false.
Proof.
  intros H1 H2. destruct (within p q) eqn:E; auto.
  rewrite (within_trans _ _ _ H1 E) in H2. discriminate.
Qed.

(** ** Looking up *)

Lemma lookup_single (c : string) (es : list (string * Node)) :
  lookup [c] (Dir es) = entry c es.
Proof. simpl. now destruct (entry c es). Qed.

(** Above an existing node there are directories, and they are not empty. *)
Lemma lookup_above (p q : Path) (n x : Node) :
  lookup q n = Some x -> within p q = true -> p <> q ->
  exists e es, lookup p n = Some (Dir (e :: es)).
Proof.
  revert q n. induction p as [|c p IH]; intros q n Hq Hw Hne.
  - destruct q as [|y q]; [congruence|]. simpl in Hq.
    destruct n as [|es]; [discriminate|].
    destruct es as [|e es]; [discriminate|]. simpl. eauto.
  - destruct q as [|y q]; simpl in Hw; [discriminate|].
    apply andb_true_iff in Hw. destruct Hw as [Hc Hw].
    apply String.eqb_eq in Hc. subst y. simpl in Hq |- *.
    destruct n as [|es]; [discriminate|].
    destruct (entry c es) as [child|]; [|discriminate].
    apply (IH q child); auto. congruence.
Qed.


Lemma is_file_lookup (q : Path) (n : Node) :
  is_file q n = true -> exists data, lookup q n = Some (File data).
Proof.
  unfold is_file, stat. destruct (lookup q n) as [[data|es]|]; simpl;
    try discriminate. eauto.
Qed.

Lemma is_dir_lookup (q : Path) (n : Node) :
  is_dir q n = true -> exists es, lookup q n = Some (Dir es).
Proof.
  unfold is_dir, stat. destruct (lookup q n) as [[data|es]|]; simpl;
    try discriminate. eauto.
Qed.

Lemma is_file_stat (q : Path) (n n' : Node) :
  stat q n' = stat q n -> is_file q n = true -> is_file q n' = true.
Proof. unfold is_file. now intros ->. Qed.

Lemma is_dir_stat (q : Path) (n n' : Node) :
  stat q n' = stat q n -> is_dir q n = true -> is_dir q n' = true.
Proof. unfold is_dir. now intros ->. Qed.

(** ** [alter_at] and the writing of files *)

Lemma alter_at_outside (p : Path) f (n n' : Node) (q : Path) :
  alter_at p f n = inr n' -> within p q = false -> stat q n' = stat q n.
Proof.
  unfold stat. revert n n' q. induction p as [|c p IH]; intros n n' q H Hw.
  - discriminate.
  - simpl in H. destruct n as [|es]; [discriminate|].
    destruct q as [|y q].
    + destruct p; [destruct (f (entry c es)) as [|[|]]|
                   destruct (entry c es); [destruct (alter_at _ _ _)|]];
        try discriminate; injection H as <-; reflexivity.
    + simpl in Hw. destruct (c =? y) eqn:Ec; simpl in Hw.
      * apply String.eqb_eq in Ec. subst y.
        destruct p as [|c2 p]; [discriminate|].
        destruct (entry c es) as [child|] eqn:Ee; [|discriminate].
        destruct (alter_at (c2 :: p) f child) as [|child'] eqn:Ea; [discriminate|].
        injection H as <-. simpl. rewrite entry_set_same, Ee.
        apply (IH child child' q Ea Hw).
      * destruct p as [|c2 p].
        -- destruct (f (entry c es)) as [|[v|]]; try discriminate;
             injection H as <-; simpl.
           ++ now rewrite entry_set_other.
           ++ now rewrite entry_del_other.
        -- destruct (entry c es) as [child|]; [|discriminate].
           destruct (alter_at (c2 :: p) f child); [discriminate|].
           injection H as <-. simpl. now rewrite entry_set_other.
Qed.

Lemma alter_at_here (p : Path) f (n n' : Node) :
  alter_at p f n = inr n' ->
  exists o, f (lookup p n) = inr o /\ lookup p n' = o.
Proof.
  revert n n'. induction p as [|c p IH]; intros n n' H.
  - discriminate.
  - simpl in H. destruct n as [|es]; [discriminate|].
    destruct p as [|c2 p].
    + rewrite lookup_single.
      destruct (f (entry c es)) as [|[v|]] eqn:Ef; try discriminate;
        injection H as <-; eexists; split; eauto; rewrite lookup_single.
      * apply entry_set_same.
      * apply entry_del_same.
    + destruct (entry c es) as [child|] eqn:Ee; [|discriminate].
      destruct (alter_at (c2 :: p) f child) as [|child'] eqn:Ea; [discriminate|].
      injection H as <-. destruct (IH _ _ Ea) as [o [Ho1 Ho2]].
      exists o. split.
      * change (lookup (c :: c2 :: p) (Dir es))
          with (match entry c es with Some ch => lookup (c2 :: p) ch | None => None end).
        now rewrite Ee.
      * change (lookup (c :: c2 :: p) (Dir (set_entry c child' es)))
          with (match entry c (set_entry c child' es) with
                | Some ch => lookup (c2 :: p) ch | None => None end).
        now rewrite entry_set_same.
Qed.

Lemma write_file_content (p : Path) (data : string) (n n' : Node) :
  write_file p data n = inr n' -> lookup p n' = Some (File data).
Proof.
  intros H. apply alter_at_here in H. destruct H as [o [Hf Ho]].
  destruct (lookup p n) as [[|]|]; try discriminate.
  injection Hf as <-. exact Ho.
Qed.

(** Writing a file leaves every file a file. *)
Lemma put_file_keeps_file (p : Path) (data : string) (n n' : Node) (q : Path) :
  put_file p data n = inr n' -> is_file q n = true -> is_file q n' = true.
Proof.
  intros H Hq. destruct (within p q) eqn:Hw.
  - destruct (alter_at_here _ _ _ _ H) as [o [Hf Ho]].
    destruct (is_file_lookup _ _ Hq) as [dq Hdq].
    assert (Hpq : p = q).
    { destruct (list_eq_dec string_dec p q) as [|Hne]; auto.
      destruct (lookup_above p q n _ Hdq Hw Hne) as [e [es Hp]].
      rewrite Hp in Hf. discriminate. }
    subst q. rewrite Hdq in Hf. injection Hf as <-.
    unfold is_file, stat. now rewrite Ho.
  - apply (is_file_stat q n n'); auto. apply (alter_at_outside _ _ _ _ _ H Hw).
Qed.

(** ** [mkdir_all] *)


(** What exists stays what it is. *)
Lemma mkdir_all_keeps (p : Path) (n n' : Node) (q : Path) (x : Node) :
  mkdir_all p n = inr n' -> lookup q n = Some x -> stat q n' = Some (kind x).
Proof.
  unfold stat. revert n n' q x. induction p as [|c p IH]; intros n n' q x H Hq.
  - destruct n; simpl in H; [discriminate|]. injection H as <-. now rewrite Hq.
  - destruct n as [|es]; simpl in H; [discriminate|].
    destruct (mkdir_all p _) as [|child'] eqn:E; [discriminate|].
    injection H as <-. destruct q as [|y q].
    + simpl in Hq. injection Hq as <-. reflexivity.
    + simpl in Hq |- *. destruct (c =? y) eqn:Ec.
      * apply String.eqb_eq in Ec. subst y. rewrite entry_set_same.
        destruct (entry c es) as [ch|]; [|discriminate].
        apply (IH _ _ _ _ E Hq).
      * rewrite entry_set_other by assumption.
        destruct (entry y es); [|discriminate]. now rewrite Hq.
Qed.

(** Below an existing directory, nothing changes outside of it. *)
Lemma mkdir_all_outside (d p : Path) (n n' : Node) (q : Path) :
  is_dir d n = true -> within d p = true -> mkdir_all p n = inr n' ->
  within d q = false -> stat q n' = stat q n.
Proof.
  unfold is_dir, stat. revert p n n' q.
  induction d as [|c d IH]; intros p n n' q Hd Hp H Hq.
  - discriminate.
  - destruct p as [|c' p]; simpl in Hp; [discriminate|].
    apply andb_true_iff in Hp. destruct Hp as [Hc Hp].
    apply String.eqb_eq in Hc. subst c'.
    destruct n as [|es]; simpl in H; [discriminate|].
    simpl in Hd. destruct (entry c es) as [child|] eqn:Ee; [|discriminate].
    destruct (mkdir_all p child) as [|child'] eqn:E; [discriminate|].
    injection H as <-. destruct q as [|y q]; [reflexivity|].
    simpl in Hq |- *. destruct (c =? y) eqn:Ec; simpl in Hq.
    + apply String.eqb_eq in Ec. subst y. rewrite entry_set_same, Ee.
      apply (IH p child child' q); auto.
    + now rewrite entry_set_other.
Qed.

Lemma mkdir_all_keeps_file (p : Path) (n n' : Node) (q : Path) :
  mkdir_all p n = inr n' -> is_file q n = true -> is_file q n' = true.
Proof.
  intros H Hq. destruct (is_file_lookup _ _ Hq) as [dq Hdq].
  unfold is_file. now rewrite (mkdir_all_keeps _ _ _ _ _ H Hdq).
Qed.


(** ** [rename] *)




(** ** Extraction *)

Section Extraction.

Variables (cwd root : Path) (dst : string).

Lemma untar_entry_inside (e : tar.Entry) (d d' : Node) :
  untar_entry cwd root dst e d = inr d' -> inside cwd root dst e.
Proof.
  unfold untar_entry, inside. intros H.
  destruct (resolve cwd _) as [p|]; [|discriminate].
  destruct (within root p) eqn:Hw; [|discriminate]. eauto.
Qed.

Lemma untar_entry_keeps_file (e : tar.Entry) (d d' : Node) (q : Path) :
  untar_entry cwd root dst e d = inr d' ->
  is_file q d = true -> is_file q d' = true.
Proof.
  unfold untar_entry. intros H Hq.
  destruct (resolve cwd _) as [p|]; [|discriminate].
  destruct (within root p); [|discriminate].
  destruct (tar.Type_ e).
  - destruct (mkdir_all p d) as [|d1] eqn:E; [discriminate|].
    injection H as <-. apply (mkdir_all_keeps_file _ _ _ _ E Hq).
  - destruct (put_file p _ d) as [|d1] eqn:E; [discriminate|].
    injection H as <-. apply (put_file_keeps_file _ _ _ _ _ E Hq).
  - now injection H as <-.
Qed.

(** One entry leaves the destination a directory and leaves alone what
    is not below it. *)
Lemma untar_entry_outside (e : tar.Entry) (d d' : Node) :
  untar_entry cwd root dst e d = inr d' -> is_dir root d = true ->
  is_dir root d' = true
  /\ forall q, within root q = false -> stat q d' = stat q d.
Proof.
  unfold untar_entry. intros H Hroot.
  destruct (resolve cwd _) as [p|]; [|discriminate].
  destruct (within root p) eqn:Hw; [|discriminate].
  destruct (tar.Type_ e).
  - destruct (mkdir_all p d) as [|d1] eqn:E; [discriminate|].
    injection H as <-. split.
    + destruct (is_dir_lookup _ _ Hroot) as [es Hes].
      unfold is_dir. now rewrite (mkdir_all_keeps _ _ _ _ _ E Hes).
    + intros q Hq. apply (mkdir_all_outside root p d d1 q); auto.
  - destruct (put_file p _ d) as [|d1] eqn:E; [discriminate|].
    injection H as <-. split.
    + destruct (within p root) eqn:Hback.
      * pose proof (within_antisym _ _ Hw Hback) as <-.
        destruct (alter_at_here _ _ _ _ E) as [o [Hf _]].
        destruct (is_dir_lookup _ _ Hroot) as [es Hes].
        rewrite Hes in Hf. discriminate.
      * apply (is_dir_stat root d d1); auto.
        apply (alter_at_outside _ _ _ _ _ E Hback).
    + intros q Hq. apply (alter_at_outside _ _ _ _ _ E).
      apply (outside_below root); auto.
  - injection H as <-. auto.
Qed.

Lemma untar_entries_keeps_file (es : list tar.Entry) (d d' : Node)
    (err : option error) (q : Path) :
  untar_entries cwd root dst es d = (err, d') ->
  is_file q d = true -> is_file q d' = true.
Proof.
  revert d. induction es as [|e es IH]; intros d H Hq; simpl in H.
  - now injection H as _ <-.
  - destruct (untar_entry cwd root dst e d) as [|d1] eqn:E.
    + now injection H as _ <-.
    + apply (IH d1); auto. apply (untar_entry_keeps_file _ _ _ _ E Hq).
Qed.

Lemma untar_entries_outside (es : list tar.Entry) (d d' : Node)
    (err : option error) :
  untar_entries cwd root dst es d = (err, d') -> is_dir root d = true ->
  forall q, within root q = false -> stat q d' = stat q d.
Proof.
  revert d. induction es as [|e es IH]; intros d H Hroot q Hq; simpl in H.
  - now injection H as _ <-.
  - destruct (untar_entry cwd root dst e d) as [|d1] eqn:E.
    + now injection H as _ <-.
    + destruct (untar_entry_outside _ _ _ E Hroot) as [Hroot1 Hout].
      rewrite (IH d1 H Hroot1 q Hq). now apply Hout.
Qed.

Lemma untar_entries_inside (es : list tar.Entry) (d d' : Node) :
  untar_entries cwd root dst es d = (None, d') ->
  Forall (inside cwd root dst) es.
Proof.
  revert d. induction es as [|e es IH]; intros d H; simpl in H.
  - constructor.
  - destruct (untar_entry cwd root dst e d) as [|d1] eqn:E; [discriminate|].
    constructor; eauto using untar_entry_inside.
Qed.

End Extraction.

(** * Running the program *)


Lemma length_empty (x : string) :
  Nat.ltb 0 (String.length x) = false -> x = "".
Proof. destruct x; [reflexivity|discriminate]. Qed.

Lemma at_name_inv (name : string) act (wd : Path) (d d' : Node) :
  at_name name act wd d = inr d' ->
  exists p, resolve wd name = Some p /\ act p d = inr d'.
Proof.
  unfold at_name. destruct (resolve wd name) as [p|]; [|discriminate]. eauto.
Qed.

Lemma must_exist_inv (p : Path) (d d' : Node) :
  must_exist p d = inr d' -> d' = d /\ exists x, lookup p d = Some x.
Proof.
  unfold must_exist. destruct (lookup p d) as [x|]; [|discriminate].
  intros H. injection H as <-. eauto.
Qed.


Section Calls.

Variable env : Env.

Lemma syscall_cases (c : Call) (mk : Errno -> error)
    (act : Path -> Node -> Errno + Node) (s : State) :
  (exists no, syscall env c mk act s = (Some (mk no), record c (Some (mk no)) s))
  \/ (exists d, act (cwd s) (disk s) = inr d
                /\ syscall env c mk act s = (None, record c None (set_disk d s))).
Proof.
  unfold syscall. destruct (env_fault env c (history s)) as [no|].
  - left. now exists no.
  - destruct (act (cwd s) (disk s)) as [no|d].
    + left. now exists no.
    + right. now exists d.
Qed.

Lemma util_Untar_cases (dst : string) (f : os.File) (s : State) :
  let c := UtilUntar dst (os.Name f) in
  (exists e, util_Untar env dst (Some f) s = (Val (Some e), record c (Some e) s))
  \/ (exists p bytes entries root err d,
        resolve (cwd s) (os.Name f) = Some p
        /\ lookup p (disk s) = Some (File bytes)
        /\ env_tar env bytes = inr entries
        /\ resolve (cwd s) (filepath.Clean dst) = Some root
        /\ is_dir root (disk s) = true
        /\ untar_entries (cwd s) root dst entries (disk s) = (err, d)
        /\ util_Untar env dst (Some f) s = (Val err, record c err (set_disk d s))).
Proof.
  intros c. subst c. unfold util_Untar. cbv zeta.
  destruct (env_fault env _ _); [left; eauto|].
  destruct (resolve (cwd s) (os.Name f)) as [p|] eqn:Hp; [|left; eauto].
  destruct (lookup p (disk s)) as [[bytes|]|] eqn:Hb; try (left; eauto; fail).
  destruct (env_tar env bytes) as [|entries] eqn:Ht; [left; eauto|].
  destruct (resolve (cwd s) (filepath.Clean dst)) as [root|] eqn:Hr; [|left; eauto].
  destruct (is_dir root (disk s)) eqn:Hd; [|left; eauto].
  destruct (untar_entries _ _ _ _ _) as [err d] eqn:Hu.
  right. exists p, bytes, entries, root, err, d. repeat split; auto.
Qed.

End Calls.

(** The tactics below run a function of the program on a state whose
    two flags are known: [run_open] unfolds the monad, the logging and
    the calls, [run_case] and [run_untar] split on what the environment
    and the directory tree answer. *)

Ltac run_open :=
  cbv beta iota zeta delta
    [bind ret when defer deref negb fst snd
     sectionMsg statusMsg errorMsg traceMsg get_Quiet get_TraceOn os_Exit
     fmt.Print fmt.Println log.Println log.prefix Trace Info Warning Error
     put_stdout put_log record set_disk os.Name http.Timeout
     Quiet TraceOn cwd disk history stdout logfile
     os_Stat os_MkdirAll os_Create os_Open os_Rename io_Copy copy_into as_file
     http_Get Body_Close git_PlainClone Repository_Worktree Worktree_Checkout].

Ltac run_case :=
  match goal with
  | |- context [syscall ?e ?c ?mk ?act ?s] =>
      let H := fresh "Hsys" in
      let Ha := fresh "Hact" in
      destruct (syscall_cases e c mk act s) as [[? H] | [? [Ha H]]];
      rewrite H; clear H;
      [ | cbv beta iota delta [cwd disk os.Name] in Ha ]
  | |- context [env_http ?e ?u ?h] =>
      let H := fresh "Hget" in destruct (env_http e u h) as [?|?] eqn:H
  | |- context [env_clone ?e ?p ?b ?o ?h ?d] =>
      let H := fresh "Hclone" in
      destruct (env_clone e p b o h d) as [[?|?] ?] eqn:H
  | |- context [env_worktree ?e ?r ?h] =>
      let H := fresh "Hwt" in destruct (env_worktree e r h) as [?|?] eqn:H
  | |- context [env_checkout ?e ?w ?o ?h ?d] =>
      let H := fresh "Hco" in destruct (env_checkout e w o h d) as [[?|] ?] eqn:H
  | |- context [Nat.ltb 0 (String.length ?x)] =>
      let H := fresh "Hlen" in destruct (Nat.ltb 0 (String.length x)) eqn:H
  | |- context [Nat.eqb (String.length ?x) 0] =>
      let H := fresh "Hlen" in destruct (Nat.eqb (String.length x) 0) eqn:H
  end.

Ltac run_untar :=
  match goal with
  | |- context [util_Untar ?e ?dst (Some ?f) ?s] =>
      let H := fresh "Hrun" in
      destruct (util_Untar_cases e dst f s)
        as [[? H] | (?p & ?bytes & ?entries & ?root & ?err & ?d & ?Hp & ?Hbytes
                      & ?Htar & ?Hroot & ?Hdir & ?Huntar & H)];
      rewrite H; clear H;
      [ | cbv beta iota delta [cwd disk os.Name] in Hp, Hbytes, Hroot, Hdir, Huntar;
          match goal with
          | E : untar_entries _ _ _ _ _ = (?err, _) |- _ => destruct err
          end ]
  end.

Ltac run := repeat (progress run_open || run_case || run_untar).

Ltac run_from s :=
  destruct s as [q t wd d h so lg]; destruct q, t.

(** [run_of f s] runs the call of [f] on the state [s] that the goal
    speaks of, once: the result and the final state get names, the body
    of [f] is run, and the names are replaced by what each run gave. *)
Ltac run_of f s :=
  match goal with
  | |- context [f ?e ?i s] =>
      let r := fresh "r" in
      let s' := fresh "s'" in
      let E := fresh "Erun" in
      destruct (f e i s) as [r s'] eqn:E; revert E; unfold f;
      run_from s; run; intros E; injection E as <- <-; run_open
  end.

Ltac list_eq := repeat rewrite <- app_assoc; reflexivity.




Ltac len_contra :=
  match goal with
  | H : ?x <> "", L : Nat.ltb 0 (String.length ?x) = false |- _ =>
      exfalso; apply H; apply (length_empty _ L)
  | H : ?x = "", L : Nat.ltb 0 (String.length ?x) = true |- _ =>
      rewrite H in L; discriminate L
  | H : ?x = "", L : Nat.eqb (String.length ?x) 0 = false |- _ =>
      rewrite H in L; discriminate L
  end.

Ltac same_paths :=
  repeat match goal with
         | H1 : resolve ?w ?n = Some ?a, H2 : resolve ?w ?n = Some ?b |- _ =>
             rewrite H1 in H2; injection H2 as <-
         end.

Ltac names_resolved :=
  repeat match goal with
         | H : at_name _ _ _ _ = inr _ |- _ =>
             apply at_name_inv in H; destruct H as [?p [?Hp H]]
         | H : must_exist _ _ = inr _ |- _ =>
             apply must_exist_inv in H; destruct H as [? [?x ?Hx]]; subst
         | H : match resolve ?w ?n with Some _ => _ | None => _ end = inr _ |- _ =>
             let E := fresh "Hp" in
             destruct (resolve w n) as [?p|] eqn:E; [|discriminate H]
         end;
  same_paths.

(** * Runs of [getDojoSource] *)

Section SourceRuns.

Variable env : Env.

Lemma getDojoSource_calls (i : InstallConfig) (s : State) :
  let run := getDojoSource env i s in
  exists new,
    history (snd run) = (history s ++ new)%list
    /\ Forall (fun ev => source_call (fst ev) = true) new.
Proof.
  intros run. subst run. run_of getDojoSource s.
  all: eexists; (split; [list_eq|]); repeat constructor.
Qed.

(** The run of the commit path. *)
Lemma getDojoSource_commit_run (i : InstallConfig) (s : State) :
  SourceCommit i <> "" ->
  let run := getDojoSource env i s in
  exists new,
    history (snd run) = (history s ++ new)%list
    /\ ((exists e, directory_failed i new e /\ fst run = Val (Some e))
        \/ (exists pre tail,
              new = (pre ++ tail)%list /\ directory_ready i pre
              /\ commit_path i tail (fst run))).
Proof.
  intros Hc run. subst run. run_of getDojoSource s; try len_contra.
  all: eexists; (split; [list_eq|]).
  all: first
    [ left; eexists; split; [eexists; reflexivity | reflexivity]
    | right; first
        [ exists [(OsStat (srcPath_of i), None)]; eexists;
          split; [reflexivity|]; split; [left; reflexivity|]
        | eexists (_ :: _ :: nil); eexists;
          split; [reflexivity|]; split; [right; eexists; reflexivity|] ];
      cbn [fst]; constructor ].
Qed.


End SourceRuns.

(** * Runs of [getDojoRelease] *)

Section ReleaseRuns.

Variable env : Env.

Lemma getDojoRelease_calls (i : InstallConfig) (s : State) :
  let run := getDojoRelease env i s in
  exists new,
    history (snd run) = (history s ++ new)%list
    /\ Forall (fun ev => release_call (fst ev) = true) new.
Proof.
  intros run. subst run. run_of getDojoRelease s.
  all: eexists; (split; [list_eq|]); repeat constructor.
Qed.

Lemma getDojoRelease_success_run (i : InstallConfig) (s : State) :
  let run := getDojoRelease env i s in
  fst run = Val None ->
  exists resp pt d0 d1 root bytes entries d2 po pn,
    env_http env (dwnURL_of i) (history s) = inr resp
    /\ history (snd run)
       = (history s ++ map (fun c => (c, None)) (release_calls i (http.Body resp)))%list
    /\ resolve (cwd s) (tarball_of i) = Some pt
    /\ create_file pt (disk s) = inr d0
    /\ write_file pt (http.Body resp) d0 = inr d1
    /\ resolve (cwd s) (filepath.Clean (Root i)) = Some root
    /\ lookup pt d1 = Some (File bytes)
    /\ env_tar env bytes = inr entries
    /\ untar_entries (cwd s) root (Root i) entries d1 = (None, d2)
    /\ resolve (cwd s) (oldPath_of i) = Some po
    /\ resolve (cwd s) (srcPath_of i) = Some pn
    /\ rename po pn d2 = inr (disk (snd run)).
Proof.
  intros run. subst run. unfold dwnURL_of, tarball_of, oldPath_of, srcPath_of.
  run_of getDojoRelease s; try discriminate; intros _.
  all: names_resolved.
  all: do 10 eexists; repeat (split; [first [eassumption | list_eq]|]);
    eassumption.
Qed.

(** The status of the reply is not looked at: whatever it is, the file
    for the archive is created next. *)
Lemma getDojoRelease_any_status (i : InstallConfig) (s : State)
    (resp : http.Response) :
  env_http env (dwnURL_of i) (history s) = inr resp ->
  exists e rest,
    history (snd (getDojoRelease env i s))
    = (history s ++ (HttpGet 20 (dwnURL_of i), None)
                 :: (OsCreate (tarball_of i), e) :: rest)%list.
Proof.
  unfold dwnURL_of, tarball_of. intros Hresp.
  run_of getDojoRelease s; cbv [history] in Hresp;
    try (rewrite Hresp in *; discriminate).
  all: eexists; eexists; list_eq.
Qed.

(** An error of the transport is returned and nothing else is done. *)
Lemma getDojoRelease_network_error (i : InstallConfig) (s : State)
    (reason : string) :
  let run := getDojoRelease env i s in
  env_http env (dwnURL_of i) (history s) = inl reason ->
  fst run = Val (Some (UrlError "Get" (dwnURL_of i) reason))
  /\ history (snd run)
     = (history s
        ++ [(HttpGet 20 (dwnURL_of i),
             Some (UrlError "Get" (dwnURL_of i) reason))])%list
  /\ disk (snd run) = disk s.
Proof.
  intros run. subst run. unfold dwnURL_of. intros Hresp.
  run_of getDojoRelease s; cbv [history] in Hresp;
    try (rewrite Hresp in *; discriminate).
  all: rewrite Hresp in *;
    match goal with H : inl _ = inl _ |- _ => injection H as <- end;
    repeat split; reflexivity.
Qed.

End ReleaseRuns.

(** * What the program does *)

Section Behaviour.

Variable env : Env.

(** ** The dispatcher *)

Lemma source_not_release (c : Call) :
  source_call c = true -> release_call c = false.
Proof. now destruct c. Qed.

Lemma release_not_source (c : Call) :
  release_call c = true -> source_call c = false.
Proof. now destruct c. Qed.

Lemma acquirer_not_other (i : InstallConfig) (c : Call) :
  acquirer_call i c = true -> other_acquirer_call i c = false.
Proof.
  unfold acquirer_call, other_acquirer_call. destruct (SourceInstall i).
  - apply source_not_release.
  - apply release_not_source.
Qed.

(** C1, as amended.  For every configuration [main] runs exactly one
    acquirer, chosen by [SourceInstall] alone: [getDojoSource] when it is
    true and [getDojoRelease] when it is false.  The disk and the calls
    of [main] are those of that acquirer, every call belongs to it and
    none to the other one.  [main] returns no error: when the acquirer
    returns nil it goes on to its end, and when the acquirer returns an
    error it logs an error line that ends with the text of that error and
    leaves the process with status 1. *)
Theorem main_runs_one_acquirer (conf : DojoConfig) (s : State) :
  let i := Install conf in
  let run := main env conf s in
  exists s0 new,
    same_surroundings s s0
    /\ disk (snd run) = disk (snd (acquirer env i s0))
    /\ history (snd run) = history (snd (acquirer env i s0))
    /\ history (snd run) = (history s ++ new)%list
    /\ Forall (fun ev => acquirer_call i (fst ev) = true) new
    /\ Forall (fun ev => other_acquirer_call i (fst ev) = false) new
    /\ match fst (acquirer env i s0) with
       | Val None => fst run = Val tt
       | Val (Some e) =>
           fst run = Exit 1
           /\ last (logfile (snd run)) ("", "")
              = (log.prefix Error,
                 "Error attempting to install " ++ acquirer_name i ++ " was:"
                 ++ nl ++ "    " ++ err_Error e)
       | Exit c => fst run = Exit c
       | Panic msg => fst run = Panic msg
       end.
Proof.
  intros i run.
  assert (Hmain : exists s0 new,
    same_surroundings s s0
    /\ disk (snd run) = disk (snd (acquirer env i s0))
    /\ history (snd run) = history (snd (acquirer env i s0))
    /\ history (snd run) = (history s ++ new)%list
    /\ Forall (fun ev => acquirer_call i (fst ev) = true) new
    /\ match fst (acquirer env i s0) with
       | Val None => fst run = Val tt
       | Val (Some e) =>
           fst run = Exit 1
           /\ last (logfile (snd run)) ("", "")
              = (log.prefix Error,
                 "Error attempting to install " ++ acquirer_name i ++ " was:"
                 ++ nl ++ "    " ++ err_Error e)
       | Exit c => fst run = Exit c
       | Panic msg => fst run = Panic msg
       end).
  { subst run i. unfold main, acquirer, acquirer_call, acquirer_name.
    destruct (SourceInstall (Install conf)).
    - run_from s; run_open.
      all: match goal with
           | |- context [getDojoSource env ?i ?s0] =>
               exists s0;
               destruct (getDojoSource_calls env i s0) as [new [Hh Hall]];
               exists new; cbv beta iota zeta delta [snd history] in Hh;
               destruct (getDojoSource env i s0) as [[[e|]|c|m] s1];
               destruct s1 as [q1 t1 w1 d1 h1 so1 lg1]; destruct q1
           end.
      all: run_open; unfold same_surroundings;
        cbn [Quiet TraceOn cwd disk history];
        repeat (split; [solve [auto]|]); auto.
      all: now rewrite last_last.
    - run_from s; run_open.
      all: match goal with
           | |- context [getDojoRelease env ?i ?s0] =>
               exists s0;
               destruct (getDojoRelease_calls env i s0) as [new [Hh Hall]];
               exists new; cbv beta iota zeta delta [snd history] in Hh;
               destruct (getDojoRelease env i s0) as [[[e|]|c|m] s1];
               destruct s1 as [q1 t1 w1 d1 h1 so1 lg1]; destruct q1
           end.
      all: run_open; unfold same_surroundings;
        cbn [Quiet TraceOn cwd disk history];
        repeat (split; [solve [auto]|]); auto.
      all: now rewrite last_last. }
  destruct Hmain as (s0 & new & H1 & H2 & H3 & H4 & H5 & H6).
  exists s0, new. repeat (split; [assumption|]). split; [|exact H6].
  apply (Forall_impl _ (fun ev => acquirer_not_other i (fst ev)) H5).
Qed.

(** ** [getDojoSource] *)



(** When [Worktree] returns an error, [getDojoSource] does not return
    it: the checkout that follows panics on the nil work tree. *)
Lemma getDojoSource_worktree_error_lost (i : InstallConfig) (s : State)
    (new : list Event) (r : git.Repository) (e : error) :
  let run := getDojoSource env i s in
  SourceCommit i <> "" ->
  history (snd run) = (history s ++ new)%list ->
  In (RepoWorktree r, Some e) new ->
  fst run = Panic nil_dereference.
Proof.
  intros run Hc Hh Hin.
  destruct (getDojoSource_commit_run env i s Hc) as [new' [Hh' Hcases]].
  fold run in Hh', Hcases. rewrite Hh in Hh'. apply app_inv_head in Hh'.
  subst new'.
  destruct Hcases as [(e1 & [e0 Hnew] & _) | (pre & tail & Hnew & Hpre & Htail)];
    subst new.
  - simpl in Hin. destruct Hin as [H|[H|[]]]; discriminate.
  - apply in_app_or in Hin. destruct Hin as [Hin|Hin].
    + destruct Hpre as [->|[e0 ->]]; simpl in Hin;
        repeat (destruct Hin as [Hin|Hin]; [discriminate|]); contradiction.
    + destruct Htail; simpl in Hin;
        repeat (destruct Hin as [Hin|Hin]; [try discriminate|]);
        try contradiction; reflexivity.
Qed.



(** ** [getDojoRelease] *)



(** ** [util.Untar] *)

(** C8.  Whatever the archive holds and however the extraction ends,
    [util.Untar] changes nothing outside of its destination: what is not
    at or below the destination is after the call what it was before,
    file or directory or nothing.  And an extraction that returns nil
    has met no entry whose path resolves outside of the destination: such
    an entry ends the extraction with an error. *)
Theorem util_Untar_stays_inside (dst : string) (r : option os.File) (s : State)
    (root q : Path) :
  let run := util_Untar env dst r s in
  resolve (cwd s) (filepath.Clean dst) = Some root ->
  within root q = false ->
  stat q (disk (snd run)) = stat q (disk s)
  /\ (fst run = Val None ->
      exists f p bytes entries,
        r = Some f
        /\ resolve (cwd s) (os.Name f) = Some p
        /\ lookup p (disk s) = Some (File bytes)
        /\ env_tar env bytes = inr entries
        /\ Forall (inside (cwd s) root dst) entries).
Proof.
  intros run Hroot Hq. subst run. destruct r as [f|].
  - destruct (util_Untar_cases env dst f s)
      as [[e H] | (p & bytes & entries & root' & err & d & Hp & Hbytes & Htar
                   & Hroot' & Hdir & Huntar & H)]; rewrite H; cbn [fst snd].
    + split; [reflexivity | discriminate].
    + rewrite Hroot in Hroot'. injection Hroot' as <-.
      change (disk (record (UtilUntar dst (os.Name f)) err (set_disk d s))) with d.
      split.
      * apply (untar_entries_outside _ _ _ _ _ _ _ Huntar Hdir q Hq).
      * intros Hnone. injection Hnone as ->.
        exists f, p, bytes, entries. repeat split; auto.
        apply (untar_entries_inside _ _ _ _ _ _ Huntar).
  - cbn. split; [reflexivity | discriminate].
Qed.

End Behaviour.

(** * Concrete runs *)

(** ** Paths and the tree *)

Example Clean_examples :
  filepath.Clean "/opt/dojo/django-DefectDojo-1/.." = "/opt/dojo"
  /\ filepath.Clean "a//b/./c/" = "a/b/c"
  /\ filepath.Clean "a/../../b" = "../b"
  /\ filepath.Clean "/.." = "/"
  /\ filepath.Clean "" = ".".
Proof. repeat split. Qed.

Example Join_examples :
  filepath.Join "/opt/dojo" "dojo" = "/opt/dojo/dojo"
  /\ filepath.Join "/opt/dojo" "../dojo2" = "/opt/dojo2"
  /\ filepath.Join "" "dojo" = "dojo"
  /\ filepath.Join "" "" = "".
Proof. repeat split. Qed.

Example rename_moves_what_is_below :
  rename ["opt"; "dojo"] ["opt"; "dojo2"]
    (Dir [("opt", Dir [("dojo", Dir [("f", File "x")])])])
  = inr (Dir [("opt", Dir [("dojo2", Dir [("f", File "x")])])]).
Proof. reflexivity. Qed.

(** An entry that points out of the destination ends the extraction;
    what came before it in the archive is on the disk. *)
Example untar_rejects_path_traversal :
  untar_entries [] ["opt"; "dojo"] "/opt/dojo" Demo.evil_entries Demo.disk_fresh
  = (Some (illegal_path "../../etc/cron.d/job"),
     Dir [("opt", Dir [("dojo", Dir [("django-DefectDojo-1.2.3", Dir [])])])]).
Proof. reflexivity. Qed.

(** ** C1 *)

(** C1, as stated, fails: without commit and without branch
    [getDojoSource] returns the configuration error, and [main] does not
    return it, nor anything: the process exits with status 1. *)
Lemma main_exits_on_acquirer_error :
  SourceInstall Demo.cfg_neither = true
  /\ fst (getDojoSource Demo.env_ok Demo.cfg_neither (Demo.start Demo.disk_fresh))
     = Val (Some (empty_configuration_error Demo.cfg_neither))
  /\ fst (main Demo.env_ok {| Install := Demo.cfg_neither |}
            (Demo.start Demo.disk_fresh))
     = Exit 1
  /\ forall v, fst (main Demo.env_ok {| Install := Demo.cfg_neither |}
                      (Demo.start Demo.disk_fresh))
               <> Val v.
Proof.
  split; [reflexivity|]. split; [vm_compute; reflexivity|].
  assert (H : fst (main Demo.env_ok {| Install := Demo.cfg_neither |}
                     (Demo.start Demo.disk_fresh)) = Exit 1)
    by (vm_compute; reflexivity).
  split; [exact H|]. intros v. rewrite H. discriminate.
Qed.

(** ** C2 *)


(** ** C3 *)



(** ** C4 *)


(** The scenario of the spec: the archive is at
    [/opt/dojo/dojo-v1.2.3.tar.gz] and the source at [/opt/dojo/dojo]. *)
Example getDojoRelease_scenario :
  disk (snd (getDojoRelease Demo.env_ok Demo.cfg_release
               (Demo.start Demo.disk_fresh)))
  = Dir [("opt",
          Dir [("dojo",
                Dir [("dojo-v1.2.3.tar.gz", File Demo.archive_bytes);
                     ("dojo", Dir [("README.md", File "DefectDojo")])])])].
Proof. vm_compute. reflexivity. Qed.

(** ** C5 *)

(** C5: the server answers 404 with an error page.  [getDojoRelease] does
    not fail on the status: it creates the archive file, writes the error
    page into it and opens it; the error it returns is the one of the
    extraction of the error page. *)
Theorem getDojoRelease_writes_error_page :
  env_http Demo.env_404 (dwnURL_of Demo.cfg_release) []
  = inr {| http.Status := "404 Not Found"; http.StatusCode := 404;
           http.Body := "Not Found" |}
  /\ history (snd (getDojoRelease Demo.env_404 Demo.cfg_release
                     (Demo.start Demo.disk_fresh)))
     = [ (HttpGet 20
            "https://github.com/DefectDojo/django-DefectDojo/archive/1.2.3.tar.gz",
          None);
         (OsCreate "/opt/dojo/dojo-v1.2.3.tar.gz", None);
         (IoCopy "/opt/dojo/dojo-v1.2.3.tar.gz" "Not Found", None);
         (OsOpen "/opt/dojo/dojo-v1.2.3.tar.gz", None);
         (UtilUntar "/opt/dojo" "/opt/dojo/dojo-v1.2.3.tar.gz",
          Some (UntarError "gzip: invalid header"));
         (BodyClose, None) ]
  /\ lookup ["opt"; "dojo"; "dojo-v1.2.3.tar.gz"]
       (disk (snd (getDojoRelease Demo.env_404 Demo.cfg_release
                     (Demo.start Demo.disk_fresh))))
     = Some (File "Not Found")
  /\ fst (getDojoRelease Demo.env_404 Demo.cfg_release
            (Demo.start Demo.disk_fresh))
     = Val (Some (UntarError "gzip: invalid header")).
Proof. repeat split; vm_compute; reflexivity. Qed.

(** ** C6 *)


(** ** C7 *)


(** ** C8 *)

(** C8 on a run: the archive of the release 1.2.3 is extracted into
    [/opt/dojo]; [/etc/cron.d/job] is outside. *)
Lemma util_Untar_stays_inside_witness :
  resolve (cwd (Demo.start Demo.disk_downloaded)) (filepath.Clean "/opt/dojo")
  = Some ["opt"; "dojo"]
  /\ within ["opt"; "dojo"] ["etc"; "cron.d"; "job"] = false
  /\ (stat ["etc"; "cron.d"; "job"]
        (disk (snd (util_Untar Demo.env_ok "/opt/dojo"
                      (Some {| os.Name := "/opt/dojo/dojo-v1.2.3.tar.gz" |})
                      (Demo.start Demo.disk_downloaded))))
      = stat ["etc"; "cron.d"; "job"] (disk (Demo.start Demo.disk_downloaded))
      /\ (fst (util_Untar Demo.env_ok "/opt/dojo"
                 (Some {| os.Name := "/opt/dojo/dojo-v1.2.3.tar.gz" |})
                 (Demo.start Demo.disk_downloaded)) = Val None ->
          exists f p bytes entries,
            Some {| os.Name := "/opt/dojo/dojo-v1.2.3.tar.gz" |} = Some f
            /\ resolve (cwd (Demo.start Demo.disk_downloaded)) (os.Name f) = Some p
            /\ lookup p (disk (Demo.start Demo.disk_downloaded))
               = Some (File bytes)
            /\ env_tar Demo.env_ok bytes = inr entries
            /\ Forall (inside (cwd (Demo.start Demo.disk_downloaded))
                         ["opt"; "dojo"] "/opt/dojo") entries)).
Proof.
  split; [reflexivity|]. split; [reflexivity|].
  exact (util_Untar_stays_inside Demo.env_ok "/opt/dojo"
           (Some {| os.Name := "/opt/dojo/dojo-v1.2.3.tar.gz" |})
           (Demo.start Demo.disk_downloaded) ["opt"; "dojo"]
           ["etc"; "cron.d"; "job"] eq_refl eq_refl).
Defined.

(** ** C9 *)



(** ** C10 *)


(** The configuration error leaves the new directory behind. *)
Example getDojoSource_leaves_empty_directory :
  lookup ["opt"; "dojo"; "dojo"] Demo.disk_fresh = None
  /\ fst (getDojoSource Demo.env_ok Demo.cfg_neither (Demo.start Demo.disk_fresh))
     = Val (Some (empty_configuration_error Demo.cfg_neither))
  /\ disk (snd (getDojoSource Demo.env_ok Demo.cfg_neither
                  (Demo.start Demo.disk_fresh)))
     = Dir [("opt", Dir [("dojo", Dir [("dojo", Dir [])])])].
Proof. repeat split; vm_compute; reflexivity. Qed.

(** * Further properties of the acquirers and of [main] *)

(** ** More on the directory tree *)

Lemma create_file_is_file (p : Path) (n n' : Node) :
  create_file p n = inr n' -> is_file p n' = true.
Proof.
  intros H. apply alter_at_here in H. destruct H as [o [Hf Ho]].
  unfold is_file, stat.
  destruct (lookup p n) as [[|]|]; try discriminate;
    injection Hf as <-; now rewrite Ho.
Qed.

Lemma write_file_is_file (p : Path) (data : string) (n n' : Node) :
  write_file p data n = inr n' -> is_file p n' = true.
Proof.
  intros H. unfold is_file, stat. now rewrite (write_file_content _ _ _ _ H).
Qed.

Lemma write_file_outside (p : Path) (data : string) (n n' : Node) (q : Path) :
  write_file p data n = inr n' -> within p q = false -> stat q n' = stat q n.
Proof. apply alter_at_outside. Qed.

Lemma create_file_outside (p : Path) (n n' : Node) (q : Path) :
  create_file p n = inr n' -> within p q = false -> stat q n' = stat q n.
Proof. apply alter_at_outside. Qed.

(** What is renamed is afterwards at the new path. *)
Lemma rename_moves (old new : Path) (n n' : Node) :
  rename old new n = inr n' ->
  exists src, lookup old n = Some src /\ lookup new n' = Some src.
Proof.
  unfold rename. intros H.
  destruct (lookup old n) as [src|] eqn:Hold; [|discriminate].
  exists src. split; [reflexivity|].
  destruct (path_eqb old new) eqn:Heq.
  - apply path_eqb_eq in Heq. subst new. now injection H as <-.
  - destruct (within old new); [discriminate|].
    destruct (replaceable src (lookup new n)); [discriminate|].
    destruct (alter_at old _ n) as [|n1]; [discriminate|].
    apply alter_at_here in H. destruct H as [o [Hf Ho]].
    now injection Hf as <-.
Qed.

(** ** Tactics for the runs *)

Lemma length_zero (x : string) : Nat.eqb (String.length x) 0 = true -> x = "".
Proof. destruct x; [reflexivity|discriminate]. Qed.

Ltac branch_contra :=
  match goal with
  | H : ?x <> "", L : Nat.eqb (String.length ?x) 0 = true |- _ =>
      exfalso; apply H; apply (length_zero _ L)
  end.

(** The calls of a list of events are all different. *)
Ltac distinct_calls :=
  cbn [map fst];
  repeat (apply NoDup_cons;
          [ cbn [In]; intros Hin;
            repeat (destruct Hin as [Hin|Hin]; [discriminate Hin|]); exact Hin
          | ]);
  apply NoDup_nil.


Ltac one_of_the_notes := cbn [In]; repeat (first [left; reflexivity | right]).

Ltac last_line :=
  first [ reflexivity | repeat rewrite app_assoc; rewrite last_last; reflexivity ].

Ltac try_notes l :=
  match l with
  | ?n :: ?rest =>
      first [ exists n; split; [one_of_the_notes | last_line] | try_notes rest ]
  end.

(** ** The calls, the errors and the disk *)

Section Further.

Variable env : Env.

(** X1.  The branch path of [getDojoSource].  With no commit and a
    branch configured, once the source directory is there or has been
    made, [getDojoSource] makes one more call and no other: the clone of
    the fixed repository, restricted to the single reference
    [refs/heads/<SourceBranch>], into the join of [Root] and [Source].
    It returns what that clone returns, nil or its error; no work tree is
    asked for and nothing is checked out.  When the directory could not
    be made, the error of [os.MkdirAll] is returned and nothing is
    cloned. *)
Theorem getDojoSource_branch_path (i : InstallConfig) (s : State) :
  let run := getDojoSource env i s in
  SourceCommit i = "" -> SourceBranch i <> "" ->
  exists new,
    history (snd run) = (history s ++ new)%list
    /\ ((exists e, directory_failed i new e /\ fst run = Val (Some e))
        \/ (exists pre e,
              new = (pre ++ [(branch_clone i, e)])%list
              /\ directory_ready i pre /\ fst run = Val e)).
Proof.
  intros run Hc Hb. subst run.
  run_of getDojoSource s; try len_contra; try branch_contra.
  all: eexists; (split; [list_eq|]).
  all: first
    [ left; eexists; split; [eexists; reflexivity | reflexivity]
    | right; first
        [ exists [(OsStat (srcPath_of i), None)]; eexists;
          split; [reflexivity|]; split; [left; reflexivity | reflexivity]
        | eexists (_ :: _ :: nil); eexists;
          split; [reflexivity|]; split;
          [right; eexists; reflexivity | reflexivity] ] ].
Qed.

(** X2.  How [getDojoSource] ends.  It never leaves the process: for
    every configuration and every environment it returns or it panics.
    It panics in one situation only, with the nil dereference, and then
    the last call made is a [Worktree] that returned an error; and in a
    run that returns, no [Worktree] has failed. *)
Theorem getDojoSource_panics_only_without_worktree (i : InstallConfig) (s : State) :
  let run := getDojoSource env i s in
  exists new,
    history (snd run) = (history s ++ new)%list
    /\ match fst run with
       | Val _ => existsb failed_worktree new = false
       | Exit _ => False
       | Panic msg =>
           msg = nil_dereference
           /\ exists before r e, new = (before ++ [(RepoWorktree r, Some e)])%list
       end.
Proof.
  intros run. subst run. run_of getDojoSource s.
  all: eexists; (split; [list_eq|]); cbv iota.
  all: first
    [ reflexivity
    | split; [reflexivity|]; first
        [ eexists [_; _]; eexists; eexists; reflexivity
        | eexists [_; _; _]; eexists; eexists; reflexivity ] ].
Qed.

(** X3.  [getDojoRelease] stops at the first error.  Its six calls that
    can fail are made in a fixed order: the GET, the creation of the
    archive file, the copy of the body into it, the opening of the file,
    the extraction and the renaming.  Every run returns, nil or an error,
    and never panics or exits.  A run that returns nil has made the six
    calls, all without error, and then closed the body.  A run that
    returns an error has made the first [k] calls without error, then
    call [k], which returned that very error, and then nothing but the
    close of the body, if there is one.  No call is made twice. *)
Theorem getDojoRelease_stops_at_first_error (i : InstallConfig) (s : State) :
  let run := getDojoRelease env i s in
  let body := match env_http env (dwnURL_of i) (history s) with
              | inr resp => http.Body resp
              | inl _ => ""
              end in
  exists new r,
    history (snd run) = (history s ++ new)%list
    /\ fst run = Val r
    /\ NoDup (map fst new)
    /\ match r with
       | None =>
           new = (map succeeded (release_steps i body) ++ [(BodyClose, None)])%list
       | Some e =>
           exists k c,
             nth_error (release_steps i body) k = Some c
             /\ new = (map succeeded (firstn k (release_steps i body))
                       ++ (c, Some e) :: closing k)%list
       end.
Proof.
  intros run body. subst run body.
  unfold release_steps, dwnURL_of, tarball_of, oldPath_of, srcPath_of.
  run_of getDojoRelease s.
  all: eexists; eexists; (split; [list_eq|]); (split; [reflexivity|]).
  all: (split; [distinct_calls|]).
  all: cbv iota.
  all: first
    [ reflexivity
    | exists 0; eexists; split; reflexivity
    | exists 1; eexists; split; reflexivity
    | exists 2; eexists; split; reflexivity
    | exists 3; eexists; split; reflexivity
    | exists 4; eexists; split; reflexivity
    | exists 5; eexists; split; reflexivity ].
Qed.

(** X4.  The deferred close.  In every run of [getDojoRelease] in which
    the GET returned a reply, the body of the reply is closed exactly
    once, and that is the last call of the run, whether the run fails or
    not.  When the GET returned an error there is no reply and nothing
    is closed. *)
Theorem getDojoRelease_closes_body_once (i : InstallConfig) (s : State) :
  let run := getDojoRelease env i s in
  exists new,
    history (snd run) = (history s ++ new)%list
    /\ match env_http env (dwnURL_of i) (history s) with
       | inl _ => Forall (fun ev => fst ev <> BodyClose) new
       | inr _ =>
           exists before,
             new = (before ++ [(BodyClose, None)])%list
             /\ Forall (fun ev => fst ev <> BodyClose) before
       end.
Proof.
  intros run. subst run. unfold dwnURL_of.
  run_of getDojoRelease s.
  all: eexists; (split; [list_eq|]); cbv iota.
  all: first
    [ repeat constructor; cbn [fst]; discriminate
    | eexists (_ :: nil)%list; split; [reflexivity|]
    | eexists (_ :: _ :: nil)%list; split; [reflexivity|]
    | eexists (_ :: _ :: _ :: nil)%list; split; [reflexivity|]
    | eexists (_ :: _ :: _ :: _ :: nil)%list; split; [reflexivity|]
    | eexists (_ :: _ :: _ :: _ :: _ :: nil)%list; split; [reflexivity|]
    | eexists (_ :: _ :: _ :: _ :: _ :: _ :: nil)%list; split; [reflexivity|] ].
  all: repeat constructor; cbn [fst]; discriminate.
Qed.

(** X5.  No cleaning up after a failure.  When [getDojoRelease] returns
    an error after it has created the archive file, a regular file is
    still at the path of the archive, [Root/dojo-v<Version>.tar.gz], when
    it returns: the file is not removed, whichever later step failed.
    When it returns an error and has not created the file, the disk is
    as it was. *)
Theorem getDojoRelease_failure_on_disk (i : InstallConfig) (s : State) (e : error) :
  let run := getDojoRelease env i s in
  fst run = Val (Some e) ->
  exists new,
    history (snd run) = (history s ++ new)%list
    /\ if existsb created new
       then exists pt,
              resolve (cwd s) (tarball_of i) = Some pt
              /\ is_file pt (disk (snd run)) = true
       else disk (snd run) = disk s.
Proof.
  intros run. subst run. unfold tarball_of.
  run_of getDojoRelease s; intros He; try discriminate He; clear He.
  all: eexists; (split; [list_eq|]).
  all: cbn [app existsb created orb]; try reflexivity.
  all: names_resolved.
  all: eexists; (split; [eassumption|]).
  all: eauto using create_file_is_file, write_file_is_file,
         untar_entries_keeps_file.
Qed.

(** X6.  What is installed is what was downloaded.  In every run of
    [getDojoRelease] that succeeds: the download changes nothing on the
    disk but the archive file, which then holds the body of the reply;
    the entries extracted are those of that body; and the tree found
    afterwards at the join of [Root] and [Source] is the very tree that
    the extraction left at the join of [Root] and
    [django-DefectDojo-<Version>]. *)
Theorem getDojoRelease_installs_what_it_downloaded (i : InstallConfig) (s : State) :
  let run := getDojoRelease env i s in
  fst run = Val None ->
  exists resp entries pt root d1 d2 po pn tree,
    env_http env (dwnURL_of i) (history s) = inr resp
    /\ resolve (cwd s) (tarball_of i) = Some pt
    /\ lookup pt d1 = Some (File (http.Body resp))
    /\ (forall q, within pt q = false -> stat q d1 = stat q (disk s))
    /\ env_tar env (http.Body resp) = inr entries
    /\ resolve (cwd s) (filepath.Clean (Root i)) = Some root
    /\ untar_entries (cwd s) root (Root i) entries d1 = (None, d2)
    /\ resolve (cwd s) (oldPath_of i) = Some po
    /\ resolve (cwd s) (srcPath_of i) = Some pn
    /\ lookup po d2 = Some tree
    /\ lookup pn (disk (snd run)) = Some tree.
Proof.
  intros run Hok.
  destruct (getDojoRelease_success_run env i s Hok)
    as (resp & pt & d0 & d1 & root & bytes & entries & d2 & po & pn
        & Hget & Hhist & Hpt & Hcreate & Hwrite & Hroot & Hbytes & Htar
        & Huntar & Hpo & Hpn & Hren).
  rewrite (write_file_content _ _ _ _ Hwrite) in Hbytes. injection Hbytes as <-.
  destruct (rename_moves _ _ _ _ Hren) as [tree [Hold Hnew]].
  exists resp, entries, pt, root, d1, d2, po, pn, tree.
  repeat (split; [solve [eauto using write_file_content]|]).
  split.
  - intros q Hq. rewrite (write_file_outside _ _ _ _ _ Hwrite Hq).
    apply (create_file_outside _ _ _ _ Hcreate Hq).
  - repeat (split; [assumption|]). exact Hnew.
Qed.

(** X7.  One call to the network, to a fixed address.  Whichever
    acquirer [SourceInstall] selects, a run of it goes to the network at
    most once, and exactly once when it succeeds: nothing is tried again.
    That call is the GET of the release URL of the configured version or
    a clone of the fixed repository into the join of [Root] and
    [Source]. *)
Theorem acquirer_contacts_the_network_once (i : InstallConfig) (s : State) :
  let run := acquirer env i s in
  exists new,
    history (snd run) = (history s ++ new)%list
    /\ length (network_calls new) <= 1
    /\ (fst run = Val None -> length (network_calls new) = 1)
    /\ forall c, In c (network_calls new) ->
         c = HttpGet 20 (dwnURL_of i)
         \/ exists ref single,
              c = GitPlainClone (srcPath_of i) false
                    {| git.URL := CloneURL; git.ReferenceName := ref;
                       git.SingleBranch := single |}.
Proof.
  intros run. subst run.
  destruct (acquirer env i s) as [r s'] eqn:Erun. revert Erun.
  unfold acquirer, getDojoSource, getDojoRelease, dwnURL_of, srcPath_of.
  destruct (SourceInstall i); run_from s; run;
    intros Erun; injection Erun as <- <-; run_open.
  all: eexists; (split; [list_eq|]).
  all: cbn [app network_calls map filter network_call fst length].
  all: (split; [auto|]); (split; [first [reflexivity | discriminate]|]).
  all: cbn [In]; intros c Hin;
    repeat (destruct Hin as [Hin|Hin]; [subst c|]); try contradiction;
    first [left; reflexivity | right; eexists; eexists; reflexivity].
Qed.

(** ** The console and the log *)

(** X8.  With [Quiet] set, [getDojoRelease] prints nothing, whether it
    succeeds or fails. *)
Theorem getDojoRelease_quiet_prints_nothing (i : InstallConfig) (s : State) :
  Quiet s = true ->
  stdout (snd (getDojoRelease env i s)) = stdout s.
Proof.
  run_of getDojoRelease s; intros Hq; try discriminate Hq.
  all: reflexivity.
Qed.

(** X9.  [Quiet] does not silence [getDojoSource].  With [Quiet] set, a
    run of [getDojoSource] prints nothing, with one exception: when the
    checkout of the commit fails, the line [Error checking out was]
    followed by the error is printed all the same. *)
Theorem getDojoSource_quiet_prints_checkout_error (i : InstallConfig) (s : State) :
  let run := getDojoSource env i s in
  Quiet s = true ->
  exists new,
    history (snd run) = (history s ++ new)%list
    /\ match fst run with
       | Val (Some e) =>
           stdout (snd run)
           = if existsb failed_checkout new
             then (stdout s
                   ++ [("Error checking out was " ++ err_Error e ++ nl)%string])%list
             else stdout s
       | _ => existsb failed_checkout new = false /\ stdout (snd run) = stdout s
       end.
Proof.
  intros run. subst run.
  run_of getDojoSource s; intros Hq; try discriminate Hq.
  all: eexists; (split; [list_eq|]).
  all: cbv iota; rewrite ?existsb_app; cbn [existsb failed_checkout orb];
    rewrite ?orb_false_r; cbn [existsb failed_checkout orb];
    try split; reflexivity.
Qed.

(** X10.  The error [getDojoRelease] returns and the log.  With tracing
    on, the last line logged by a run that returns an error is a trace
    line that names the failed step and ends with the text of the error
    returned.  With tracing off, such a run logs one line only, the
    information line it starts with: the error is not in the log when
    [getDojoRelease] returns. *)
Theorem getDojoRelease_logs_its_error (i : InstallConfig) (s : State) (e : error) :
  let run := getDojoRelease env i s in
  fst run = Val (Some e) ->
  if TraceOn s
  then exists note,
         In note release_error_notes
         /\ last (logfile (snd run)) ("", "")
            = (log.prefix Trace, note ++ err_Error e)
  else logfile (snd run)
       = (logfile s
          ++ [(log.prefix Info,
               "Downloading the configured release of DefectDojo")])%list.
Proof.
  intros run. subst run.
  run_of getDojoRelease s; intros He; try discriminate He;
    injection He as <-.
  all: first [ reflexivity
             | let l := eval cbv [release_error_notes] in release_error_notes in
               try_notes l ].
Qed.

(** X11.  The error [getDojoSource] returns and the log.  With tracing
    on, the last line logged by a run that returns an error is a trace
    line that names the failed step and ends with the text of the error
    returned.  With tracing off, such a run logs information lines only:
    the line it starts with and, when it got that far, the line that
    names the commit or the branch chosen. *)
Theorem getDojoSource_logs_its_error (i : InstallConfig) (s : State) (e : error) :
  let run := getDojoSource env i s in
  fst run = Val (Some e) ->
  if TraceOn s
  then exists note,
         In note source_error_notes
         /\ last (logfile (snd run)) ("", "")
            = (log.prefix Trace, note ++ err_Error e)
  else exists chosen,
         logfile (snd run)
         = (logfile s
            ++ (log.prefix Info,
                "Downloading DefectDojo source as a branch or commit from the repo directly")
               :: chosen)%list
         /\ (chosen = []
             \/ chosen = [(log.prefix Info,
                           "Dojo will be installed from commit " ++ SourceCommit i)]
             \/ chosen = [(log.prefix Info,
                           "DefectDojo will be installed from branch "
                           ++ SourceBranch i)]).
Proof.
  intros run. subst run.
  run_of getDojoSource s; intros He; try discriminate He;
    injection He as <-.
  all: first
    [ let l := eval cbv [source_error_notes] in source_error_notes in try_notes l
    | exists []; split; [list_eq | left; reflexivity]
    | eexists [_]; split;
      [list_eq | right; first [left; reflexivity | right; reflexivity]] ].
Qed.


End Further.

(** ** Messages do not steer the program

    The flags, the console and the log are written and never read back
    to decide what to do: a computation is [blind] when two states that
    agree on the working directory, the disk and the history make it end
    the same way in the same world. *)

Create HintDb blind discriminated.

Lemma blind_ret {A} (a : A) : blind (ret a).
Proof. intros s1 s2 H. split; [reflexivity | exact H]. Qed.

Lemma blind_bind {A B} (m : M A) (k : A -> M B) :
  blind m -> (forall a, blind (k a)) -> blind (bind m k).
Proof.
  intros Hm Hk s1 s2 H. unfold bind.
  destruct (Hm s1 s2 H) as [Hr Hs].
  destruct (m s1) as [[a1|c1|m1] s1'], (m s2) as [[a2|c2|m2] s2'];
    cbn [fst snd] in Hr, Hs; try discriminate Hr.
  - injection Hr as <-. now apply Hk.
  - split; cbn [fst snd]; congruence.
  - split; cbn [fst snd]; congruence.
Qed.

Lemma blind_defer {A} (d : M unit) (body : M A) :
  blind d -> blind body -> blind (defer d body).
Proof.
  intros Hd Hb s1 s2 H. unfold defer.
  destruct (Hb s1 s2 H) as [Hr Hs].
  destruct (body s1) as [[a1|c1|m1] s1'], (body s2) as [[a2|c2|m2] s2'];
    cbn [fst snd] in Hr, Hs; try discriminate Hr.
  - injection Hr as <-. destruct (Hd s1' s2' Hs) as [Hr' Hs'].
    destruct (d s1') as [[u1|c1|m1] s1''], (d s2') as [[u2|c2|m2] s2''];
      cbn [fst snd] in Hr', Hs'; try discriminate Hr'; split; cbn [fst snd];
      congruence.
  - split; cbn [fst snd]; congruence.
  - injection Hr as <-. destruct (Hd s1' s2' Hs) as [Hr' Hs'].
    destruct (d s1') as [[u1|c1|n1] s1''], (d s2') as [[u2|c2|n2] s2''];
      cbn [fst snd] in Hr', Hs'; try discriminate Hr'; split; cbn [fst snd];
      congruence.
Qed.

Lemma blind_deref {A} (p : option A) : blind (deref p).
Proof. intros s1 s2 H. destruct p; (split; [reflexivity | exact H]). Qed.

Lemma blind_os_Exit {A} (c : Z) : blind (@os_Exit A c).
Proof. intros s1 s2 H. split; [reflexivity | exact H]. Qed.

(** The message functions read the flags and write to the console and
    to the log only. *)
Ltac blind_message :=
  intros [q1 t1 w1 d1 h1 o1 l1] [q2 t2 w2 d2 h2 o2 l2] H;
  destruct q1, q2, t1, t2; (split; [reflexivity | exact H]).

Lemma blind_sectionMsg (t : string) : blind (sectionMsg t).
Proof. blind_message. Qed.

Lemma blind_statusMsg (t : string) : blind (statusMsg t).
Proof. blind_message. Qed.

Lemma blind_errorMsg (t : string) : blind (errorMsg t).
Proof. blind_message. Qed.

Lemma blind_traceMsg (t : string) : blind (traceMsg t).
Proof. blind_message. Qed.

Lemma blind_Print (t : string) : blind (fmt.Print t).
Proof. blind_message. Qed.

Lemma blind_Println (t : string) : blind (fmt.Println t).
Proof. blind_message. Qed.

Section Blind.

Variable env : Env.

Lemma syscall_same_world (c : Call) (mk : Errno -> error)
    (act : Path -> Node -> Errno + Node) (s1 s2 : State) :
  same_world s1 s2 ->
  fst (syscall env c mk act s1) = fst (syscall env c mk act s2)
  /\ same_world (snd (syscall env c mk act s1)) (snd (syscall env c mk act s2)).
Proof.
  intros (Hw & Hd & Hh). unfold syscall. rewrite Hw, Hd, Hh.
  destruct (env_fault env c (history s2)) as [no|].
  - repeat split; cbn; congruence.
  - destruct (act (cwd s2) (disk s2)); repeat split; cbn; congruence.
Qed.

Ltac blind_syscall :=
  intros s1 s2 H;
  match goal with
  | |- context [syscall env ?c ?mk ?act s1] =>
      destruct (syscall_same_world c mk act s1 s2 H) as [Hr Hs];
      destruct (syscall env c mk act s1) as [e1 s1'];
      destruct (syscall env c mk act s2) as [e2 s2'];
      cbn [fst snd] in Hr, Hs; subst e2; split; [reflexivity | exact Hs]
  end.

Lemma blind_os_Stat (name : string) : blind (os_Stat env name).
Proof. unfold os_Stat. blind_syscall. Qed.

Lemma blind_os_MkdirAll (path : string) (perm : N) :
  blind (os_MkdirAll env path perm).
Proof. unfold os_MkdirAll. blind_syscall. Qed.

Lemma blind_os_Create (name : string) : blind (os_Create env name).
Proof. unfold os_Create. blind_syscall. Qed.

Lemma blind_os_Open (name : string) : blind (os_Open env name).
Proof. unfold os_Open. blind_syscall. Qed.

Lemma blind_os_Rename (o n : string) : blind (os_Rename env o n).
Proof. unfold os_Rename. blind_syscall. Qed.

Lemma blind_io_Copy (dst : option os.File) (src : string) :
  blind (io_Copy env dst src).
Proof.
  destruct dst as [f|]; [|apply blind_ret]. unfold io_Copy, copy_into.
  blind_syscall.
Qed.

Lemma blind_http_Get (c : http.Client) (url : string) : blind (http_Get env c url).
Proof.
  intros s1 s2 (Hw & Hd & Hh). unfold http_Get. rewrite Hh.
  destruct (env_http env url (history s2)); repeat split; cbn; congruence.
Qed.

Lemma blind_Body_Close : blind Body_Close.
Proof. intros s1 s2 (Hw & Hd & Hh). repeat split; cbn; congruence. Qed.

Lemma blind_git_PlainClone (path : string) (b : bool) (o : git.CloneOptions) :
  blind (git_PlainClone env path b o).
Proof.
  intros s1 s2 (Hw & Hd & Hh). unfold git_PlainClone. cbv zeta. rewrite Hd, Hh.
  destruct (env_clone env path b o (history s2) (disk s2)) as [[|] ?];
    repeat split; cbn; congruence.
Qed.

Lemma blind_Repository_Worktree (r : option git.Repository) :
  blind (Repository_Worktree env r).
Proof.
  unfold Repository_Worktree. apply blind_bind; [apply blind_deref|].
  intros r' s1 s2 (Hw & Hd & Hh). rewrite Hh.
  destruct (env_worktree env r' (history s2)); repeat split; cbn; congruence.
Qed.

Lemma blind_Worktree_Checkout (w : option git.Worktree) (o : git.CheckoutOptions) :
  blind (Worktree_Checkout env w o).
Proof.
  unfold Worktree_Checkout. apply blind_bind; [apply blind_deref|].
  intros w' s1 s2 (Hw & Hd & Hh). rewrite Hd, Hh.
  destruct (env_checkout env w' o (history s2) (disk s2)) as [[|] ?];
    repeat split; cbn; congruence.
Qed.

Lemma blind_util_Untar (dst : string) (r : option os.File) :
  blind (util_Untar env dst r).
Proof.
  intros s1 s2 (Hw & Hd & Hh). unfold util_Untar. destruct r as [f|].
  - cbv zeta. rewrite Hw, Hd, Hh.
    destruct (env_fault env _ _); [repeat split; cbn; congruence|].
    destruct (resolve (cwd s2) (os.Name f)) as [p|];
      [|repeat split; cbn; congruence].
    destruct (lookup p (disk s2)) as [[bytes|]|];
      try (repeat split; cbn; congruence).
    destruct (env_tar env bytes); [repeat split; cbn; congruence|].
    destruct (resolve (cwd s2) (filepath.Clean dst)) as [root|];
      [|repeat split; cbn; congruence].
    destruct (is_dir root (disk s2)); [|repeat split; cbn; congruence].
    destruct (untar_entries _ _ _ _ _). repeat split; cbn; congruence.
  - repeat split; cbn; congruence.
Qed.

#[local] Hint Resolve blind_ret blind_deref blind_os_Exit blind_sectionMsg
  blind_statusMsg blind_errorMsg blind_traceMsg blind_Print blind_Println
  blind_os_Stat blind_os_MkdirAll blind_os_Create blind_os_Open blind_os_Rename
  blind_io_Copy blind_http_Get blind_Body_Close blind_git_PlainClone
  blind_Repository_Worktree blind_Worktree_Checkout blind_util_Untar : blind.

(** One step through the structure of a function of the program. *)
Ltac blind_step :=
  match goal with
  | |- blind (bind _ _) => apply blind_bind; [|intros ?]
  | |- blind (defer _ _) => apply blind_defer
  | |- blind (match ?x with _ => _ end) => destruct x
  | |- blind _ => solve [auto with blind]
  end.

Lemma blind_getDojoRelease (i : InstallConfig) : blind (getDojoRelease env i).
Proof. unfold getDojoRelease. cbv zeta. repeat blind_step. Qed.

Lemma blind_getDojoSource (i : InstallConfig) : blind (getDojoSource env i).
Proof. unfold getDojoSource. cbv zeta. repeat blind_step. Qed.

Lemma blind_main (conf : DojoConfig) : blind (main env conf).
Proof.
  pose proof blind_getDojoRelease. pose proof blind_getDojoSource.
  unfold main. repeat blind_step.
Qed.

(** X13.  Messages do not steer the program.  Start [main], or either
    acquirer, in two states that have the same working directory, disk
    and history and differ in anything else: in the flags [Quiet] and
    [TraceOn], in what has been printed, in what has been logged.  The
    two runs end the same way, with the same result, the same disk and
    the same calls in the same order. *)
Theorem messages_do_not_steer (conf : DojoConfig) (i : InstallConfig)
    (s1 s2 : State) :
  same_world s1 s2 ->
  agree (main env conf s1) (main env conf s2)
  /\ agree (getDojoRelease env i s1) (getDojoRelease env i s2)
  /\ agree (getDojoSource env i s1) (getDojoSource env i s2).
Proof.
  intros H. split; [|split].
  - now apply blind_main.
  - now apply blind_getDojoRelease.
  - now apply blind_getDojoSource.
Qed.

End Blind.

(** ** The further properties on concrete runs *)

(** X1 on a run: the branch [dev] into [/opt/dojo/dojo]. *)
Lemma getDojoSource_branch_path_witness :
  SourceCommit Demo.cfg_branch = ""
  /\ SourceBranch Demo.cfg_branch <> ""
  /\ exists new,
       history (snd (getDojoSource Demo.env_ok Demo.cfg_branch
              (Demo.start Demo.disk_fresh)))
       = (history (Demo.start Demo.disk_fresh) ++ new)%list
       /\ ((exists e,
              directory_failed Demo.cfg_branch new e
              /\ fst (getDojoSource Demo.env_ok Demo.cfg_branch
              (Demo.start Demo.disk_fresh)) = Val (Some e))
           \/ (exists pre e,
                 new = (pre ++ [(branch_clone Demo.cfg_branch, e)])%list
                 /\ directory_ready Demo.cfg_branch pre
                 /\ fst (getDojoSource Demo.env_ok Demo.cfg_branch
              (Demo.start Demo.disk_fresh)) = Val e)).
Proof.
  assert (H : SourceBranch Demo.cfg_branch <> "") by discriminate.
  split; [reflexivity|]. split; [exact H|].
  exact (getDojoSource_branch_path Demo.env_ok Demo.cfg_branch
           (Demo.start Demo.disk_fresh) eq_refl H).
Defined.

Example getDojoSource_branch_scenario :
  fst (getDojoSource Demo.env_ok Demo.cfg_branch
              (Demo.start Demo.disk_fresh)) = Val None
  /\ history (snd (getDojoSource Demo.env_ok Demo.cfg_branch
              (Demo.start Demo.disk_fresh)))
     = [ (OsStat "/opt/dojo/dojo", Some (PathError "stat" "/opt/dojo/dojo" ENOENT));
         (OsMkdirAll "/opt/dojo/dojo" 493, None);
         (GitPlainClone "/opt/dojo/dojo" false
            {| git.URL := CloneURL; git.ReferenceName := "refs/heads/dev";
               git.SingleBranch := true |}, None) ].
Proof. split; vm_compute; reflexivity. Qed.

(** X5 on a run: the server answers 404, the page is written to the
    archive file, the extraction fails and the file stays. *)
Lemma getDojoRelease_failure_on_disk_witness :
  fst (getDojoRelease Demo.env_404 Demo.cfg_release
              (Demo.start Demo.disk_fresh)) = Val (Some (UntarError "gzip: invalid header"))
  /\ exists new,
       history (snd (getDojoRelease Demo.env_404 Demo.cfg_release
              (Demo.start Demo.disk_fresh)))
       = (history (Demo.start Demo.disk_fresh) ++ new)%list
       /\ if existsb created new
          then exists pt,
                 resolve (cwd (Demo.start Demo.disk_fresh))
                   (tarball_of Demo.cfg_release) = Some pt
                 /\ is_file pt (disk (snd (getDojoRelease Demo.env_404 Demo.cfg_release
              (Demo.start Demo.disk_fresh)))) = true
          else disk (snd (getDojoRelease Demo.env_404 Demo.cfg_release
              (Demo.start Demo.disk_fresh))) = disk (Demo.start Demo.disk_fresh).
Proof.
  assert (H : fst (getDojoRelease Demo.env_404 Demo.cfg_release
              (Demo.start Demo.disk_fresh))
              = Val (Some (UntarError "gzip: invalid header")))
    by (vm_compute; reflexivity).
  split; [exact H|].
  exact (getDojoRelease_failure_on_disk Demo.env_404 Demo.cfg_release
           (Demo.start Demo.disk_fresh) _ H).
Defined.

(** X6 on a run: the release 1.2.3 into [/opt/dojo]. *)
Lemma getDojoRelease_installs_what_it_downloaded_witness :
  fst (getDojoRelease Demo.env_ok Demo.cfg_release
              (Demo.start Demo.disk_fresh)) = Val None
  /\ exists resp entries pt root d1 d2 po pn tree,
       env_http Demo.env_ok (dwnURL_of Demo.cfg_release)
         (history (Demo.start Demo.disk_fresh)) = inr resp
       /\ resolve (cwd (Demo.start Demo.disk_fresh)) (tarball_of Demo.cfg_release)
          = Some pt
       /\ lookup pt d1 = Some (File (http.Body resp))
       /\ (forall q, within pt q = false ->
                     stat q d1 = stat q (disk (Demo.start Demo.disk_fresh)))
       /\ env_tar Demo.env_ok (http.Body resp) = inr entries
       /\ resolve (cwd (Demo.start Demo.disk_fresh))
            (filepath.Clean (Root Demo.cfg_release)) = Some root
       /\ untar_entries (cwd (Demo.start Demo.disk_fresh)) root
            (Root Demo.cfg_release) entries d1 = (None, d2)
       /\ resolve (cwd (Demo.start Demo.disk_fresh)) (oldPath_of Demo.cfg_release)
          = Some po
       /\ resolve (cwd (Demo.start Demo.disk_fresh)) (srcPath_of Demo.cfg_release)
          = Some pn
       /\ lookup po d2 = Some tree
       /\ lookup pn (disk (snd (getDojoRelease Demo.env_ok Demo.cfg_release
              (Demo.start Demo.disk_fresh)))) = Some tree.
Proof.
  assert (H : fst (getDojoRelease Demo.env_ok Demo.cfg_release
              (Demo.start Demo.disk_fresh)) = Val None) by (vm_compute; reflexivity).
  split; [exact H|].
  exact (getDojoRelease_installs_what_it_downloaded Demo.env_ok Demo.cfg_release
           (Demo.start Demo.disk_fresh) H).
Defined.

(** X8 on a run: the release 1.2.3 with [Quiet] set. *)
Lemma getDojoRelease_quiet_prints_nothing_witness :
  Quiet (Cases.quiet Demo.disk_fresh) = true
  /\ stdout (snd (getDojoRelease Demo.env_ok Demo.cfg_release
              (Cases.quiet Demo.disk_fresh))) = stdout (Cases.quiet Demo.disk_fresh).
Proof.
  split; [reflexivity|].
  exact (getDojoRelease_quiet_prints_nothing Demo.env_ok Demo.cfg_release
           (Cases.quiet Demo.disk_fresh) eq_refl).
Defined.

(** X9 on a run: [Quiet] is set and the commit is not in the
    repository. *)
Lemma getDojoSource_quiet_prints_checkout_error_witness :
  Quiet (Cases.quiet Demo.disk_fresh) = true
  /\ exists new,
       history (snd (getDojoSource Cases.env_no_commit Demo.cfg_commit
              (Cases.quiet Demo.disk_fresh)))
       = (history (Cases.quiet Demo.disk_fresh) ++ new)%list
       /\ match fst (getDojoSource Cases.env_no_commit Demo.cfg_commit
              (Cases.quiet Demo.disk_fresh)) with
          | Val (Some e) =>
              stdout (snd (getDojoSource Cases.env_no_commit Demo.cfg_commit
              (Cases.quiet Demo.disk_fresh)))
              = if existsb failed_checkout new
                then (stdout (Cases.quiet Demo.disk_fresh)
                      ++ [("Error checking out was " ++ err_Error e ++ nl)%string])%list
                else stdout (Cases.quiet Demo.disk_fresh)
          | _ => existsb failed_checkout new = false
                 /\ stdout (snd (getDojoSource Cases.env_no_commit Demo.cfg_commit
              (Cases.quiet Demo.disk_fresh)))
                    = stdout (Cases.quiet Demo.disk_fresh)
          end.
Proof.
  split; [reflexivity|].
  exact (getDojoSource_quiet_prints_checkout_error Cases.env_no_commit
           Demo.cfg_commit (Cases.quiet Demo.disk_fresh) eq_refl).
Defined.

Example getDojoSource_quiet_run_prints :
  Quiet (Cases.quiet Demo.disk_fresh) = true
  /\ fst (getDojoSource Cases.env_no_commit Demo.cfg_commit
              (Cases.quiet Demo.disk_fresh)) = Val (Some (GitError Cases.ErrObjectNotFound))
  /\ stdout (snd (getDojoSource Cases.env_no_commit Demo.cfg_commit
              (Cases.quiet Demo.disk_fresh)))
     = ["Error checking out was object not found" ++ nl].
Proof. repeat split; vm_compute; reflexivity. Qed.

(** X10 on a run: the server answers 404 and tracing is on. *)
Lemma getDojoRelease_logs_its_error_witness :
  fst (getDojoRelease Demo.env_404 Demo.cfg_release
              (Demo.start Demo.disk_fresh)) = Val (Some (UntarError "gzip: invalid header"))
  /\ if TraceOn (Demo.start Demo.disk_fresh)
     then exists note,
            In note release_error_notes
            /\ last (logfile (snd (getDojoRelease Demo.env_404 Demo.cfg_release
              (Demo.start Demo.disk_fresh)))) ("", "")
               = (log.prefix Trace,
                  note ++ err_Error (UntarError "gzip: invalid header"))
     else logfile (snd (getDojoRelease Demo.env_404 Demo.cfg_release
              (Demo.start Demo.disk_fresh)))
          = (logfile (Demo.start Demo.disk_fresh)
             ++ [(log.prefix Info,
                  "Downloading the configured release of DefectDojo")])%list.
Proof.
  assert (H : fst (getDojoRelease Demo.env_404 Demo.cfg_release
              (Demo.start Demo.disk_fresh))
              = Val (Some (UntarError "gzip: invalid header")))
    by (vm_compute; reflexivity).
  split; [exact H|].
  exact (getDojoRelease_logs_its_error Demo.env_404 Demo.cfg_release
           (Demo.start Demo.disk_fresh) _ H).
Defined.

(** X11 on a run: neither a commit nor a branch, tracing on. *)
Lemma getDojoSource_logs_its_error_witness :
  fst (getDojoSource Demo.env_ok Demo.cfg_neither
              (Demo.start Demo.disk_fresh)) = Val (Some (empty_configuration_error Demo.cfg_neither))
  /\ if TraceOn (Demo.start Demo.disk_fresh)
     then exists note,
            In note source_error_notes
            /\ last (logfile (snd (getDojoSource Demo.env_ok Demo.cfg_neither
              (Demo.start Demo.disk_fresh)))) ("", "")
               = (log.prefix Trace,
                  note ++ err_Error (empty_configuration_error Demo.cfg_neither))
     else exists chosen,
            logfile (snd (getDojoSource Demo.env_ok Demo.cfg_neither
              (Demo.start Demo.disk_fresh)))
            = (logfile (Demo.start Demo.disk_fresh)
               ++ (log.prefix Info,
                   "Downloading DefectDojo source as a branch or commit from the repo directly")
                  :: chosen)%list
            /\ (chosen = []
                \/ chosen = [(log.prefix Info,
                              "Dojo will be installed from commit "
                              ++ SourceCommit Demo.cfg_neither)]
                \/ chosen = [(log.prefix Info,
                              "DefectDojo will be installed from branch "
                              ++ SourceBranch Demo.cfg_neither)]).
Proof.
  assert (H : fst (getDojoSource Demo.env_ok Demo.cfg_neither
              (Demo.start Demo.disk_fresh))
              = Val (Some (empty_configuration_error Demo.cfg_neither)))
    by (vm_compute; reflexivity).
  split; [exact H|].
  exact (getDojoSource_logs_its_error Demo.env_ok Demo.cfg_neither
           (Demo.start Demo.disk_fresh) _ H).
Defined.

(** X13 on two runs: with the messages and the trace, and with [Quiet]
    set and no trace. *)
Lemma messages_do_not_steer_witness :
  same_world (Demo.start Demo.disk_fresh) (Cases.quiet Demo.disk_fresh)
  /\ agree (main Demo.env_ok Cases.conf_release (Demo.start Demo.disk_fresh))
       (main Demo.env_ok Cases.conf_release (Cases.quiet Demo.disk_fresh))
  /\ agree (getDojoRelease Demo.env_ok Demo.cfg_commit (Demo.start Demo.disk_fresh))
       (getDojoRelease Demo.env_ok Demo.cfg_commit (Cases.quiet Demo.disk_fresh))
  /\ agree (getDojoSource Demo.env_ok Demo.cfg_commit (Demo.start Demo.disk_fresh))
       (getDojoSource Demo.env_ok Demo.cfg_commit (Cases.quiet Demo.disk_fresh)).
Proof.
  assert (H : same_world (Demo.start Demo.disk_fresh) (Cases.quiet Demo.disk_fresh))
    by (repeat split; reflexivity).
  split; [exact H|].
  exact (messages_do_not_steer Demo.env_ok Cases.conf_release Demo.cfg_commit
           (Demo.start Demo.disk_fresh) (Cases.quiet Demo.disk_fresh) H).
Defined.
